(** * xp-calc: the pool dashboard's read side ([app.py])

    A shallow embedding of the request handlers of [app.py] that answer the
    JSON API ([/api/pool], [/api/search], [/api/user], [/api/wallet/../workers],
    [/api/history]) and of the background sampler that feeds the in-memory
    history, followed by the properties the specification states about them.

    Conventions.
    - A Python dictionary is a [gmap string value]; [d.get(k)] is [dget].
    - The wallet dictionaries of the snapshot are objects that several
      handlers share, so they live in a store ([heap]) and the snapshot holds
      references to them.
    - A handler that can answer with an error returns a [response].
    - The persisted store is a value of type [store]; [None] stands for a
      store whose calls raise. A statement also raises when an integer
      parameter bound to it does not fit 64 bits.
    - A text is a Rocq [string] that holds the UTF-8 bytes of the Python
      text: equality, emptiness, [in] and the split at a dot come out the
      same on the bytes as on the characters. [lower] and [strip] follow the
      Unicode tables and belong to the runtime. *)

From Stdlib Require Import ZArith Ascii String DecimalString List Lia Bool.
From Stdlib Require Import Floats.PrimFloat Floats.SpecFloat Floats.FloatOps.
From stdpp Require Import gmap strings list sorting.

Open Scope Z_scope.

(** ** Python values *)

Module Py.

(** What a field of a wallet dictionary can hold. *)
#[warnings="-register-all"]
Inductive value :=
| VNone
| VBool (b : bool)
| VInt (n : Z)
| VFloat (f : float)
| VStr (s : string)
| VList (l : list value)
| VDict (d : gmap string value).

Abbreviation dict := (gmap string value).

(** [bool(v)]. *)
Definition truthy (v : value) : bool :=
  match v with
  | VNone => false
  | VBool b => b
  | VInt n => negb (n =? 0)
  | VFloat f => negb (PrimFloat.eqb f 0%float)
  | VStr s => negb (String.eqb s "")
  | VList l => match l with [] => false | _ => true end
  | VDict d => negb (size d =? 0)%nat
  end.

(** [a or b] and [a and b] return one of their operands. *)
Definition py_or (a b : value) : value := if truthy a then a else b.
Definition py_and (a b : value) : value := if truthy a then b else a.

(** [d.get(k)]: [None] for a missing key. *)
Definition dget (d : dict) (k : string) : value := default VNone (d !! k).

(** [hash(v)] raises [TypeError] on lists and dictionaries. *)
Definition hashable (v : value) : bool :=
  match v with
  | VList _ | VDict _ => false
  | _ => true
  end.

(** [float(n)] for an integer: the nearest double, [OverflowError] ([None])
    when that is not finite. *)
Definition float_of_int (n : Z) : option float :=
  let f := SF2Prim (binary_normalize prec emax n 0 false) in
  if PrimFloat.is_infinity f then None else Some f.

(** [v == w] for a text [w]: only an equal text is equal to a text. *)
Definition eq_text (v : value) (w : string) : bool :=
  match v with
  | VStr s => String.eqb s w
  | _ => false
  end.

(** *** Text *)

(** [needle in hay] on texts. *)
Fixpoint contains (needle hay : string) : bool :=
  String.prefix needle hay ||
  match hay with
  | EmptyString => false
  | String _ hay' => contains needle hay'
  end.

(** [s.split('.', 1)[0]]: the text before the first dot. *)
Fixpoint before_dot (s : string) : string :=
  match s with
  | EmptyString => EmptyString
  | String c s' => if Ascii.eqb c "." then EmptyString else String c (before_dot s')
  end.

(** *** The builtins that are kept abstract

    [float(text)], [str(v)] for a value that is not a text, the ISO
    rendering [time.strftime("%Y-%m-%dT%H:%M:%SZ", time.gmtime(t))], and the
    text methods [s.lower()] and [s.strip()], which follow the Unicode
    tables, belong to the Python runtime and its platform; the handlers are
    embedded over any implementation of them. [None] stands for a raised
    exception. Of [s.lower()] one fact is used: it maps every character to
    at least one character, so that the empty text, and no other, has an
    empty lower case. *)
Class Runtime := {
  float_of_text : string -> option float;
  repr_of : value -> string;
  iso_utc : Z -> option string;
  lower : string -> string;
  strip : string -> string;
  lower_empty : forall s : string, lower s = "" <-> s = ""
}.

Section WithRuntime.
Context `{Runtime}.

(** [str(v)]. *)
Definition py_str (v : value) : string :=
  match v with
  | VStr s => s
  | _ => repr_of v
  end.

(** [float(v)], [None] when it raises. *)
Definition py_float (v : value) : option float :=
  match v with
  | VNone => None
  | VBool b => Some (if b then 1%float else 0%float)
  | VInt n => float_of_int n
  | VFloat f => Some f
  | VStr s => float_of_text s
  | VList _ | VDict _ => None
  end.

End WithRuntime.

End Py.
Import Py.

(** ** The persisted store *)

Module Store.

(** A row of [workers_seen(wallet, worker, last_seen, active)]; a column
    that holds NULL is [None]. *)
Record worker_seen := {
  ws_wallet : option string;
  ws_worker : option string;
  ws_last_seen : option Z;
  ws_active : option Z
}.

(** A row of [wallet_history(wallet, ts, hashrate)]. *)
Record history_row := {
  wh_wallet : option string;
  wh_ts : option Z;
  wh_hashrate : option float
}.

(** An open connection. A table that is [None] makes [execute] raise. *)
Record db := {
  workers_seen : option (list worker_seen);
  wallet_history : option (list history_row)
}.

(** What [get_db()] gives: [None] when it raises. *)
Definition store := option db.

(** An integer parameter of a statement is bound as a 64-bit INTEGER: for a
    Python integer outside that range the binding, and so [execute], raises
    [OverflowError]. *)
Definition bindable (n : Z) : bool := (- 2 ^ 63 <=? n) && (n <? 2 ^ 63).

(** [MAX] over a group: NULL entries are skipped, and the result is NULL when
    nothing is left. *)
Definition max_opt (a b : option Z) : option Z :=
  match a, b with
  | Some x, Some y => Some (Z.max x y)
  | Some x, None => Some x
  | None, _ => b
  end.

(** [SELECT wallet, MAX(last_seen) as last_seen FROM workers_seen GROUP BY
    wallet]: one row per distinct wallet (NULL is a group of its own). *)
Definition select_max_last_seen (rows : list worker_seen) : list (option string * option Z) :=
  (fun w => (w, foldr max_opt None (ws_last_seen <$> filter (fun r => ws_wallet r = w) rows)))
    <$> remove_dups (ws_wallet <$> rows).

(** The [WHERE] clause shared by the two statements of [api_wallet_workers]:
    [wallet=? AND active=1 AND last_seen>=?]. A comparison with NULL is not
    true. *)
Definition worker_matches (wallet : string) (since : Z) (r : worker_seen) : bool :=
  bool_decide (ws_wallet r = Some wallet) &&
  bool_decide (ws_active r = Some 1) &&
  match ws_last_seen r with Some t => since <=? t | None => false end.

Definition last_seen_key (r : worker_seen) : Z := default 0 (ws_last_seen r).

(** [ORDER BY last_seen DESC]. *)
Definition newer_first (a b : worker_seen) : Prop := last_seen_key b <= last_seen_key a.

#[global] Instance newer_first_dec : RelDecision newer_first.
Proof. intros a b. unfold newer_first. apply _. Defined.

(** [SELECT COUNT( * ) FROM workers_seen WHERE ...]. *)
Definition count_workers (rows : list worker_seen) (wallet : string) (since : Z) : Z :=
  Z.of_nat (length (filter (fun r => worker_matches wallet since r) rows)).

(** [SELECT worker, last_seen FROM workers_seen WHERE ... ORDER BY last_seen
    DESC LIMIT ? OFFSET ?]. *)
Definition select_workers (rows : list worker_seen) (wallet : string) (since limit offset : Z)
  : list worker_seen :=
  take (Z.to_nat limit)
    (drop (Z.to_nat offset)
       (merge_sort newer_first
          (filter (fun r => worker_matches wallet since r) rows))).

(** The [WHERE] clause of [api_history]: [wallet=? AND ts>=?]. *)
Definition history_matches (wallet : string) (since : Z) (r : history_row) : bool :=
  bool_decide (wh_wallet r = Some wallet) &&
  match wh_ts r with Some t => since <=? t | None => false end.

Definition ts_key (r : history_row) : Z := default 0 (wh_ts r).

(** [ORDER BY ts ASC]. *)
Definition older_first (a b : history_row) : Prop := ts_key a <= ts_key b.

#[global] Instance older_first_dec : RelDecision older_first.
Proof. intros a b. unfold older_first. apply _. Defined.

(** [SELECT ts, hashrate FROM wallet_history WHERE wallet=? AND ts>=? ORDER BY
    ts ASC]. *)
Definition select_history (rows : list history_row) (wallet : string) (since : Z)
  : list history_row :=
  merge_sort older_first
    (filter (fun r => history_matches wallet since r) rows).

End Store.
Import Store.

(** ** The snapshot and the shared wallet dictionaries *)

Abbreviation loc := nat.

(** The cache the handlers read: [state.snapshot()] returns the cached
    dictionary itself, as the state classes of [app.py] do
    ([return self._snapshot]). Its wallet dictionaries are shared objects,
    held in [heap] and referred to from [users]. *)
Record state := {
  heap : gmap loc dict;
  users : list loc;           (* snap.get("users") or [] *)
  pool : option dict;         (* snap["pool"], [None] when the key is missing *)
  extras : dict               (* the other entries of the snapshot *)
}.

Definition deref (h : gmap loc dict) (l : loc) : dict := default ∅ (h !! l).

(** What a handler hands to the transport layer. *)
Inductive response (A : Type) :=
| Ok (body : A)
| NotFound
| ServerError.
Arguments Ok {A} body.
Arguments NotFound {A}.
Arguments ServerError {A}.

(** [int(text)] of a request parameter or of an environment variable. *)
Inductive int_param :=
| Missing
| Parsed (n : Z)
| Malformed.

(** [try: x = int(param) except Exception: x = fallback], the default of a
    missing parameter being [fallback] too. *)
Definition int_or (p : int_param) (fallback : Z) : Z :=
  match p with
  | Parsed n => n
  | Missing | Malformed => fallback
  end.

(** A point of a history: the time of the sample and the hashrate. *)
Abbreviation point := (Z * float)%type.

(** [HISTORY]: the deques stored under a text key, each from left to right.
    [api_history] reads with a text key only, and a text is equal to no other
    kind of key. *)
Abbreviation history := (gmap string (list point)).

(** ** Helpers *)

(** [u.get("wallet") or u.get("address")], the key of a wallet dictionary in
    [_find_wallet_row] and in [_bg_sampler]. *)
Definition row_key (u : dict) : value := py_or (dget u "wallet") (dget u "address").

(** [_find_wallet_row(wallet)]: the first wallet dictionary of the snapshot
    whose key equals [wallet]. *)
Fixpoint find_row (h : gmap loc dict) (us : list loc) (wallet : string) : option loc :=
  match us with
  | [] => None
  | l :: us' =>
      let u := deref h l in
      if eq_text (row_key u) wallet
      then Some l
      else find_row h us' wallet
  end.

Definition _find_wallet_row (st : state) (wallet : string) : option loc :=
  find_row (heap st) (users st) wallet.

(** [wallet_last_seen_map(conn)]: the rows of the aggregate, entered into a
    dictionary, the NULL wallet skipped; [{}] when [execute] raises. *)
Definition wallet_last_seen_map (conn : db) : gmap string (option Z) :=
  match workers_seen conn with
  | None => ∅
  | Some rows =>
      foldl (fun out r =>
               match r.1 with
               | None => out
               | Some w => <[w := r.2]> out
               end)
            ∅ (select_max_last_seen rows)
  end.

(** ** The handlers that only read *)

(** [GET /api/user/<wallet>]. [not row] also holds of an empty dictionary. *)
Definition api_user (st : state) (wallet : string) : response dict :=
  match _find_wallet_row st wallet with
  | None => NotFound
  | Some l =>
      let row := deref (heap st) l in
      if truthy (VDict row) then Ok row else NotFound
  end.

Section Handlers.
Context `{Runtime}.

(** The four fields [api_search] looks at, each as [u.get(k) or ""]. *)
Definition search_fields (u : dict) : list value :=
  (fun k => py_or (dget u k) (VStr "")) <$> ["address"; "wallet"; "user"; "worker"].

(** [any(ql in str(f).lower() for f in fields if f)]. *)
Definition search_hit (ql : string) (u : dict) : bool :=
  existsb (fun f => truthy f && contains ql (lower (py_str f))) (search_fields u).

(** [GET /api/search]; [q] is [request.args.get("q")]. The body is the pair
    of the query that was used and the matches. *)
Definition api_search (st : state) (q : option string) : string * list dict :=
  let q := strip (default "" q) in
  if truthy (VStr q)
  then (q, filter (fun u => search_hit (lower q) u) (deref (heap st) <$> users st))
  else (q, []).

(** ** The filtered pool view *)

(** [u.get("wallet") or u.get("address") or (u.get("user") and
    str(u.get("user")).split('.', 1)[0])]. *)
Definition wallet_of (u : dict) : value :=
  py_or (dget u "wallet")
    (py_or (dget u "address")
       (py_and (dget u "user") (VStr (before_dot (py_str (dget u "user")))))).

(** [last_map.get(wallet)] under [if wallet:]; [None] when hashing the key
    raises. *)
Definition lookup_last_seen (last_map : gmap string (option Z)) (wallet : value)
  : option (option Z) :=
  if truthy wallet then
    match wallet with
    | VStr w => Some (mjoin (last_map !! w))
    | VList _ | VDict _ => None
    | _ => Some None
    end
  else Some None.

(** The two assignments under [# attach last_seen metadata]. *)
Definition attach_last_seen (last_ts : option Z) (u : dict) : dict :=
  let ts := match last_ts with
            | Some t => if t =? 0 then VNone else VInt t
            | None => VNone
            end in
  let u1 := <["last_seen_ts" := ts]> u in
  let iso := match dget u1 "last_seen_ts" with
             | VInt t => if truthy (VInt t)
                         then match iso_utc t with Some s => VStr s | None => VNone end
                         else VNone
             | _ => VNone
             end in
  <["last_seen" := iso]> u1.

(** The [else] branch of the [keep] decision: the hashrate test, whose
    exceptions are swallowed, then the worker list when [keep] is still
    false. *)
Definition live_signal (u : dict) : bool :=
  let keep := match py_float (py_or (dget u "hashrate1m") (VInt 0)) with
              | Some f => PrimFloat.ltb 0%float f
              | None => false
              end in
  if negb keep && match dget u "active_workers" with
                  | VList ws => 0 <? Z.of_nat (length ws)
                  | _ => false
                  end
  then true else keep.

(** The [keep] flag of a wallet dictionary that went through
    [attach_last_seen], so that its [last_seen_ts] is an integer or [None]. *)
Definition keep_user (cutoff : Z) (u : dict) : bool :=
  match dget u "last_seen_ts" with
  | VInt t => if cutoff <=? t then true else live_signal u
  | _ => live_signal u
  end.

(** The body of [for u in users]: the heap after it and the references kept
    so far, or the heap at the point where an exception leaves the loop. *)
Fixpoint pool_loop (last_map : gmap string (option Z)) (cutoff : Z)
    (h : gmap loc dict) (us : list loc) (filtered : list loc)
  : gmap loc dict * option (list loc) :=
  match us with
  | [] => (h, Some filtered)
  | l :: us' =>
      let u := deref h l in
      match lookup_last_seen last_map (wallet_of u) with
      | None => (h, None)
      | Some last_ts =>
          let u' := attach_last_seen last_ts u in
          let h' := <[l := u']> h in
          pool_loop last_map cutoff h' us'
            (if keep_user cutoff u' then filtered ++ [l] else filtered)
      end
  end.

(** The node provider: [None] when [get_rpc()] gives no client; a call that
    raises is [None]. *)
Record node := {
  getblockcount : option Z;
  getbestblockhash : option string
}.

(** [# annotate with node height where possible], on the [pool] entry that
    the copy shares with the snapshot. The first component is the snapshot's
    entry afterwards, the second the copy's. *)
Definition annotate_pool (rpc : option node) (pool : option dict)
  : option dict * option dict :=
  match rpc with
  | None => (pool, pool)
  | Some n =>
      match getblockcount n with
      | Some blk =>
          let p := <["height" := VInt blk]> (<["block" := VInt blk]> (default ∅ pool)) in
          (match pool with Some _ => Some p | None => None end, Some p)
      | None =>
          match getbestblockhash n with
          | Some bh =>
              let p := <["bestblockhash" := VStr bh]> (default ∅ pool) in
              (match pool with Some _ => Some p | None => None end, Some p)
          | None => (pool, pool)
          end
      end
  end.

(** The [try] block around [wallet_last_seen_map]: [{}] when the store
    raises. *)
Definition load_last_map (db : store) : gmap string (option Z) :=
  match db with
  | Some conn => wallet_last_seen_map conn
  | None => ∅
  end.

(** The body of the response of [/api/pool]: the copy of the snapshot with
    its [users] replaced. *)
Record pool_view := {
  view_pool : option dict;
  view_users : list dict;
  view_extras : dict
}.

(** [GET /api/pool]. [timeout] is [int(os.getenv("WORKER_TIMEOUT", "300"))],
    [now] is [int(time.time())]. The state afterwards comes with the
    response: the wallet dictionaries are written in place. *)
Definition api_pool (st : state) (timeout : int_param) (now : Z)
    (db : store) (rpc : option node) : state * response pool_view :=
  let timeout_s := int_or timeout 300 in
  let cutoff := now - Z.max 0 timeout_s in
  let last_map := load_last_map db in
  match pool_loop last_map cutoff (heap st) (users st) [] with
  | (h, None) =>
      ({| heap := h; users := users st; pool := pool st; extras := extras st |},
       ServerError)
  | (h, Some filtered) =>
      let '(cached_pool, out_pool) := annotate_pool rpc (pool st) in
      ({| heap := h; users := users st; pool := cached_pool; extras := extras st |},
       Ok {| view_pool := out_pool;
             view_users := deref h <$> filtered;
             view_extras := extras st |})
  end.

(** ** Worker listing *)

(** [max(1, min(int(request.args.get("limit", 50)), 200))], 50 when [int]
    raises. *)
Definition workers_limit (limit : int_param) : Z :=
  match limit with
  | Missing => Z.max 1 (Z.min 50 200)
  | Parsed n => Z.max 1 (Z.min n 200)
  | Malformed => 50
  end.

(** [max(0, int(request.args.get("offset", 0)))], 0 when [int] raises. *)
Definition workers_offset (offset : int_param) : Z :=
  match offset with
  | Missing => Z.max 0 0
  | Parsed n => Z.max 0 n
  | Malformed => 0
  end.

Record workers_view := {
  wv_wallet : string;
  wv_total : Z;
  wv_active : Z;
  wv_workers : list (option string * option Z)   (* name, last_seen *)
}.

(** [GET /api/wallet/<wallet>/workers]. The first statement binds
    [now - timeout_s], the second also [limit] and [offset]; an exception of
    either one leads to the [except] branch. *)
Definition api_wallet_workers (wallet : string) (limit offset timeout : int_param)
    (now : Z) (db : store) : workers_view :=
  let limit := workers_limit limit in
  let offset := workers_offset offset in
  let timeout_s := int_or timeout 300 in
  let '(total, rows) :=
    match db with
    | Some {| workers_seen := Some tbl |} =>
        if bindable (now - timeout_s) && bindable offset
        then (count_workers tbl wallet (now - timeout_s),
              select_workers tbl wallet (now - timeout_s) limit offset)
        else (0, [])
    | _ => (0, [])
    end in
  {| wv_wallet := wallet;
     wv_total := total;
     wv_active := total;
     wv_workers := (fun r => (ws_worker r, ws_last_seen r)) <$> rows |}.

(** ** In-memory history *)

(** [HIST_WINDOW_SEC // max(1, SAMPLE_EVERY_SEC)], the [maxlen] of every
    deque of [HISTORY]. *)
Definition history_maxlen (HIST_WINDOW_SEC SAMPLE_EVERY_SEC : Z) : Z :=
  HIST_WINDOW_SEC / Z.max 1 SAMPLE_EVERY_SEC.

(** [d.append(x)] on a [deque(maxlen=maxlen)] with [0 <= maxlen]: the item
    goes to the right end, then the left end is dropped when the deque is
    longer than [maxlen]. The list is the deque from left to right. *)
Definition deque_append {A} (maxlen : Z) (d : list A) (x : A) : list A :=
  let d' := d ++ [x] in
  if maxlen <? Z.of_nat (length d') then tail d' else d'.

(** One pass of the body of [for u in ...] in [_bg_sampler]; [None] when it
    raises. [HISTORY[addr]] builds the deque of a new key, which raises
    [ValueError] for a negative [maxlen] and [TypeError] for a key that
    cannot be hashed. *)
Definition sample_user (maxlen ts : Z) (hist : history) (u : dict) : option history :=
  let addr := row_key u in
  if negb (truthy addr) then Some hist
  else
    let v := default 0%float (py_float (py_or (dget u "hashrate1m") (VInt 0))) in
    match addr with
    | VStr a =>
        match hist !! a with
        | Some d => Some (<[a := deque_append maxlen d (ts, v)]> hist)
        | None =>
            if maxlen <? 0 then None
            else Some (<[a := deque_append maxlen [] (ts, v)]> hist)
        end
    | VList _ | VDict _ => None
    | _ => if maxlen <? 0 then None else Some hist
    end.

(** One round of [_bg_sampler] over the wallet dictionaries of the snapshot:
    the outer [try] ends the round at the first exception and keeps what was
    appended before it. *)
Fixpoint sample_round (maxlen ts : Z) (hist : history) (us : list dict) : history :=
  match us with
  | [] => hist
  | u :: us' =>
      match sample_user maxlen ts hist u with
      | Some hist' => sample_round maxlen ts hist' us'
      | None => hist
      end
  end.

Definition _bg_sampler (maxlen : Z) (st : state) (ts : Z) (hist : history) : history :=
  sample_round maxlen ts hist (deref (heap st) <$> users st).

(** [(int(r[0]), float(r[1] or 0.0))] on a row that the query returned. *)
Definition point_of_row (r : history_row) : point :=
  (ts_key r,
   match wh_hashrate r with
   | Some f => if truthy (VFloat f) then f else 0%float
   | None => 0%float
   end).

(** [GET /api/history/<addr>]; [window] is
    [int(request.args.get("window", str(6 * 3600)))]. The statement binds
    [cutoff]; every exception of the [try] block leads to the in-memory
    series. *)
Definition api_history (hist : history) (addr : string) (window : int_param)
    (now : Z) (db : store) : string * list point :=
  let window := int_or window (6 * 3600) in
  let cutoff := now - Z.max 60 window in
  match db with
  | Some {| wallet_history := Some tbl |} =>
      if bindable cutoff
      then (addr, point_of_row <$> select_history tbl addr cutoff)
      else (addr, filter (fun p => cutoff <= p.1) (default [] (hist !! addr)))
  | _ =>
      (addr, filter (fun p => cutoff <= p.1) (default [] (hist !! addr)))
  end.

End Handlers.

(** ** The pages *)

(** [GET /search]: what [search_page] hands to the template, the query and
    the matches. *)
Definition search_page `{Runtime} (st : state) (q : option string) : string * list dict :=
  let q := strip (default "" q) in
  let matches := [] in
  if truthy (VStr q) then
    let ql := lower q in
    (q, foldl (fun matches u =>
                 let fields := [py_or (dget u "address") (VStr "");
                                py_or (dget u "wallet") (VStr "");
                                py_or (dget u "user") (VStr "");
                                py_or (dget u "worker") (VStr "")] in
                 if existsb (fun f => contains ql (lower (py_str f)))
                      (filter (fun f => truthy f) fields)
                 then matches ++ [u] else matches)
              matches (deref (heap st) <$> users st))
  else (q, matches).

(** [l[start:stop]] for indices that are not negative. *)
Definition slice {A} (l : list A) (start stop : Z) : list A :=
  drop (Z.to_nat start) (take (Z.to_nat stop) l).

Record miners_view := {
  mv_users : list dict;
  mv_page : Z;
  mv_size : Z
}.

(** [GET /miners]. The two [int(...)] are not guarded: a parameter that is
    not an integer ends the request with an error. *)
Definition miners_page (st : state) (page size : int_param) : response miners_view :=
  let users := deref (heap st) <$> users st in
  match page with
  | Malformed => ServerError
  | _ =>
      let page := Z.max (int_or page 1) 1 in
      match size with
      | Malformed => ServerError
      | _ =>
          let size := Z.max (Z.min (int_or size 50) 200) 10 in
          let start := (page - 1) * size in
          let stop := (page - 1) * size + size in
          Ok {| mv_users := slice users start stop; mv_page := page; mv_size := size |}
      end
  end.

(** The snapshot of the stand-in state classes ([DummyState], [_EmptyState]):
    [{"pool": {}, "users": [], "totals": {}}], which [refresh] never
    changes. *)
Definition empty_snapshot : state :=
  {| heap := ∅; users := []; pool := Some ∅; extras := {[ "totals" := VDict ∅ ]} |}.

(** ** The statements of the specification

    The definitions of this part follow the wording of the specification;
    the theorems below compare them with the handlers. *)

Section Specified.
Context `{Runtime}.

(** "[text] contains [q] as a case-insensitive substring". *)
Definition contains_ci (q text : string) : bool := contains (lower q) (lower text).

(** The text of a field of a wallet record: empty for a field that is
    missing, [None] or otherwise false. *)
Definition field_text (u : dict) (k : string) : string :=
  let v := dget u k in
  if truthy v then py_str v else "".

(** "at least one of the address, wallet, user, or worker fields contains the
    query as a case-insensitive substring". *)
Definition record_matches (q : string) (u : dict) : bool :=
  existsb (fun k => contains_ci q (field_text u k)) ["address"; "wallet"; "user"; "worker"].

(** [search(query)] as the specification words it: nothing for an empty or
    whitespace-only query, else the matching records in snapshot order. *)
Definition search_specified (st : state) (q : string) : list dict :=
  if String.eqb (strip q) "" then []
  else filter (fun u => record_matches q u) (deref (heap st) <$> users st).

(** "hashrate1m > 0", a missing or non-numeric hashrate counting as 0. *)
Definition hashrate_positive (u : dict) : bool :=
  match py_float (py_or (dget u "hashrate1m") (VInt 0)) with
  | Some f => PrimFloat.ltb 0%float f
  | None => false
  end.

(** "activeWorkers is non-empty". *)
Definition has_active_workers (u : dict) : bool :=
  match dget u "active_workers" with
  | VList (_ :: _) => true
  | _ => false
  end.

(** The decision function of the staleness classifier, as the specification
    gives it. *)
Definition isActive (u : dict) (lastSeenTs : option Z) (timeoutSeconds now : Z) : bool :=
  match lastSeenTs with
  | Some t => now - timeoutSeconds <=? t
  | None => false
  end || hashrate_positive u || has_active_workers u.

(** The persisted last-seen aggregate of the wallet of a record: NULL and
    "no row" are both [None]. *)
Definition persisted_last_seen (db : store) (u : dict) : option Z :=
  match wallet_of u with
  | VStr w => mjoin (load_last_map db !! w)
  | _ => None
  end.

(** The store fails [api_pool]: connecting raises, or the statement of
    [wallet_last_seen_map] does. *)
Definition store_down (db : store) : Prop :=
  match db with
  | None => True
  | Some conn => workers_seen conn = None
  end.

(** The [last_seen_ts] annotation a record carries. *)
Definition annotation_ts (u : dict) : option Z :=
  match dget u "last_seen_ts" with
  | VInt t => Some t
  | _ => None
  end.

(** A record as [api_pool] annotates it from the last-seen aggregate. *)
Definition annotate (last_map : gmap string (option Z)) (u : dict) : dict :=
  match lookup_last_seen last_map (wallet_of u) with
  | Some last_ts => attach_last_seen last_ts u
  | None => u
  end.

(** The wallet identifier of a record can be looked up, that is, it is not a
    non-empty list or dictionary. *)
Definition key_usable (u : dict) : bool :=
  negb (truthy (wallet_of u)) || hashable (wallet_of u).

End Specified.

(** "limit clamped to [10,200]", as the specification words it. *)
Definition limit_specified (n : Z) : Z := Z.max 10 (Z.min n 200).

(** "the full count of that wallet's workers with last_seen within the
    staleness timeout", as the specification words it. *)
Definition workers_within_timeout (rows : list worker_seen) (wallet : string)
    (now timeout : Z) : Z :=
  Z.of_nat (length (filter
    (fun r => bool_decide (ws_wallet r = Some wallet) &&
              match ws_last_seen r with Some t => now - timeout <=? t | None => false end)
    rows)).

(** A value that counts as false: [None], [False], a zero, and the empty
    text, list and dictionary. *)
Definition blank (v : value) : Prop :=
  match v with
  | VNone => True
  | VBool b => b = false
  | VInt n => n = 0
  | VFloat f => PrimFloat.eqb f 0%float = true
  | VStr s => s = ""
  | VList l => l = []
  | VDict d => d = ∅
  end.

(** The record has no entry [k], or one that counts as false. *)
Definition entry_blank (u : dict) (k : string) : Prop :=
  match u !! k with
  | Some v => blank v
  | None => True
  end.

(** "the record's wallet/address field" is the text [w]: the [wallet] entry
    when it is not blank, else the [address] entry. *)
Definition keyed_as (u : dict) (w : string) : Prop :=
  (u !! "wallet" = Some (VStr w) /\ w <> "") \/
  (entry_blank u "wallet" /\ u !! "address" = Some (VStr w)).

(** A text without a dot. *)
Definition dot_free (w : string) : Prop :=
  Forall (fun c => c <> "."%char) (list_ascii_of_string w).

(** The record is of the wallet [w], a text that is not empty: by its
    [wallet] entry, else by its [address] entry, else by the part of its
    [user] entry before the first dot. *)
Definition identified_as (u : dict) (w : string) : Prop :=
  w <> "" /\
  (keyed_as u w \/
   (entry_blank u "wallet" /\ entry_blank u "address" /\
    exists s, u !! "user" = Some (VStr s) /\ dot_free w /\
      (s = w \/ exists rest, s = w +:+ "." +:+ rest))).

(** The contents [HISTORY] can have: empty when the process starts, then
    changed by the rounds of the sampler only. *)
Inductive sampled `{Runtime} (maxlen : Z) : history -> Prop :=
| sampled_start : sampled maxlen ∅
| sampled_round (st : state) (ts : Z) (hist : history) :
    sampled maxlen hist -> sampled maxlen (_bg_sampler maxlen st ts hist).

(** ** Sample data

    The inputs of the examples, witnesses and counterexamples below. *)

Module Sample.

(** *** A runtime for the examples

    The examples use ASCII texts only; on these the runtime below computes
    what Python does. [lower] and [strip] are the ASCII ones; [iso_utc] is
    the ISO rendering of a Unix time as [time.gmtime] and [time.strftime]
    compute it on Linux, where the year is written in decimal without
    padding and a time whose year does not fit 32 bits raises. No example
    converts a text to a float or prints a value that is not a text, so
    these two builtins are left trivial. *)

(** [c.lower()] of an ASCII character. *)
Definition ascii_lower_char (c : ascii) : ascii :=
  let n := nat_of_ascii c in
  if (65 <=? n)%nat && (n <=? 90)%nat then ascii_of_nat (n + 32) else c.

(** [s.lower()] of an ASCII text. *)
Fixpoint ascii_lower (s : string) : string :=
  match s with
  | EmptyString => EmptyString
  | String c s' => String (ascii_lower_char c) (ascii_lower s')
  end.

(** [c.isspace()] of an ASCII character: tab, line feed, vertical tab, form
    feed, carriage return, the four separators 28 to 31, and space. *)
Definition ascii_isspace (c : ascii) : bool :=
  let n := nat_of_ascii c in
  ((9 <=? n)%nat && (n <=? 13)%nat) || ((28 <=? n)%nat && (n <=? 32)%nat).

(** [s.lstrip()], [s.rstrip()], [s.strip()] of an ASCII text. *)
Fixpoint ascii_lstrip (s : string) : string :=
  match s with
  | EmptyString => EmptyString
  | String c s' => if ascii_isspace c then ascii_lstrip s' else s
  end.

Fixpoint ascii_rstrip (s : string) : string :=
  match s with
  | EmptyString => EmptyString
  | String c s' =>
      match ascii_rstrip s' with
      | EmptyString => if ascii_isspace c then EmptyString else String c EmptyString
      | r => String c r
      end
  end.

Definition ascii_strip (s : string) : string := ascii_rstrip (ascii_lstrip s).


Definition digit (n : Z) : ascii := ascii_of_nat (48 + Z.to_nat (n mod 10)).

Definition digits2 (n : Z) : string := String (digit (n / 10)) (String (digit n) "").

(** [%Y]: the year in decimal, with a sign when negative. *)
Definition year_text (y : Z) : string := NilZero.string_of_int (Z.to_int y).

(** Year, month and day of a day number counted from 1970-01-01. *)
Definition civil_of_days (days : Z) : Z * Z * Z :=
  let z := days + 719468 in
  let era := z / 146097 in
  let doe := z - era * 146097 in
  let yoe := (doe - doe / 1460 + doe / 36524 - doe / 146096) / 365 in
  let doy := doe - (365 * yoe + yoe / 4 - yoe / 100) in
  let mp := (5 * doy + 2) / 153 in
  let d := doy - (153 * mp + 2) / 5 + 1 in
  let m := if mp <? 10 then mp + 3 else mp - 9 in
  let y := yoe + era * 400 in
  (if m <=? 2 then y + 1 else y, m, d).

Definition iso_of_unix (t : Z) : option string :=
  if (-67768040609740800 <=? t) && (t <=? 67767976233532799) then
    let '(y, m, d) := civil_of_days (t / 86400) in
    let s := t mod 86400 in
    Some (year_text y +:+ "-" +:+ digits2 m +:+ "-" +:+ digits2 d +:+ "T" +:+
          digits2 (s / 3600) +:+ ":" +:+ digits2 (s mod 3600 / 60) +:+ ":" +:+
          digits2 (s mod 60) +:+ "Z")
  else None.

Definition runtime : Runtime.
Proof.
  refine {| float_of_text := fun _ => None;
            repr_of := fun _ => "";
            iso_utc := iso_of_unix;
            lower := ascii_lower;
            strip := ascii_strip;
            lower_empty := _ |}.
  intros [|c s]; simpl; split; congruence.
Defined.

(** *** A snapshot with an idle and a busy wallet *)

Definition idle : dict :=
  {[ "address" := VStr "bc1idle"; "hashrate1m" := VInt 0; "active_workers" := VList [] ]}.

Definition busy : dict :=
  {[ "address" := VStr "bc1busy"; "hashrate1m" := VFloat 2.5%float;
     "active_workers" := VList [VStr "rig1"] ]}.

Definition snapshot : state :=
  {| heap := {[ 0%nat := idle; 1%nat := busy ]};
     users := [0%nat; 1%nat];
     pool := Some ∅;
     extras := ∅ |}.

(** Only the idle wallet. *)
Definition idle_only : state :=
  {| heap := {[ 0%nat := idle ]}; users := [0%nat]; pool := Some ∅; extras := ∅ |}.

(** *** Stores *)

Definition seen (wallet worker : string) (last_seen active : Z) : worker_seen :=
  {| ws_wallet := Some wallet; ws_worker := Some worker;
     ws_last_seen := Some last_seen; ws_active := Some active |}.

Definition store_of (rows : list worker_seen) : store :=
  Some {| workers_seen := Some rows; wallet_history := Some [] |}.

(** The clock of the examples: 2023-11-14T22:13:20Z. *)
Definition now : Z := 1700000000.

(** Seven active workers of the busy wallet, seen in the last seconds. *)
Definition seven_rigs : list worker_seen :=
  (fun i => seen "bc1busy" ("rig" +:+ String (digit (Z.of_nat i)) "") (now - Z.of_nat i) 1)
    <$> seq 1 7.

(** *** A snapshot for the search *)

Definition abc_record : dict := {[ "address" := VStr "abc123" ]}.

Definition abc : state :=
  {| heap := {[ 0%nat := abc_record ]}; users := [0%nat]; pool := Some ∅; extras := ∅ |}.

End Sample.

(** * Properties *)

(** ** Auxiliary facts on values and text *)

Lemma eq_text_true (v : value) (w : string) : eq_text v w = true <-> v = VStr w.
Proof.
  destruct v; simpl; try (split; [discriminate | intros [=]]).
  rewrite String.eqb_eq. split; [intros -> | intros [= ->]]; reflexivity.
Qed.

Lemma eq_text_false (v : value) (w : string) : eq_text v w = false <-> v <> VStr w.
Proof.
  rewrite <- eq_text_true. destruct (eq_text v w); split; congruence.
Qed.

Lemma contains_in_empty (q : string) : q <> "" -> contains q "" = false.
Proof. destruct q; [congruence | reflexivity]. Qed.

Lemma truthy_text (s : string) : truthy (VStr s) = negb (String.eqb s "").
Proof. reflexivity. Qed.

(** ** Wallet detail *)

Lemma find_row_first (h : gmap loc dict) (us : list loc) (w : string) :
  match find_row h us w with
  | Some l =>
      exists before after,
        us = before ++ l :: after /\
        row_key (deref h l) = VStr w /\
        Forall (fun l' => row_key (deref h l') <> VStr w) before
  | None => Forall (fun l => row_key (deref h l) <> VStr w) us
  end.
Proof.
  induction us as [|l us IH]; simpl.
  - constructor.
  - destruct (eq_text (row_key (deref h l)) w) eqn:E.
    + apply eq_text_true in E. exists [], us. repeat split; [assumption | constructor].
    + apply eq_text_false in E. destruct (find_row h us w) as [l'|].
      * destruct IH as (before & after & -> & Hk & Hb).
        exists (l :: before), after. repeat split; [assumption | constructor; assumption].
      * constructor; assumption.
Qed.

Lemma row_key_empty : row_key ∅ = VNone.
Proof. reflexivity. Qed.

Lemma truthy_blank (v : value) : truthy v = false <-> blank v.
Proof.
  destruct v as [|b|n|f|s|l|d]; simpl.
  - tauto.
  - tauto.
  - rewrite negb_false_iff. apply Z.eqb_eq.
  - apply negb_false_iff.
  - rewrite negb_false_iff. apply String.eqb_eq.
  - destruct l; split; congruence.
  - rewrite negb_false_iff, Nat.eqb_eq. apply map_size_empty_iff.
Qed.

Lemma dget_blank (u : dict) (k : string) : entry_blank u k <-> truthy (dget u k) = false.
Proof.
  unfold entry_blank, dget. destruct (u !! k) as [v|]; simpl.
  - symmetry. apply truthy_blank.
  - tauto.
Qed.

Lemma dget_text (u : dict) (k w : string) : dget u k = VStr w <-> u !! k = Some (VStr w).
Proof.
  unfold dget. destruct (u !! k) as [v|]; simpl; split; congruence.
Qed.

(** The key that [_find_wallet_row] and [_bg_sampler] compute is the text
    [w] exactly for the records keyed as [w]. *)
Lemma row_key_keyed (u : dict) (w : string) : row_key u = VStr w <-> keyed_as u w.
Proof.
  unfold row_key, py_or, keyed_as. rewrite (dget_blank u "wallet").
  destruct (truthy (dget u "wallet")) eqn:Et.
  - rewrite dget_text. split.
    + intros Hw. left. split; [exact Hw|].
      apply dget_text in Hw. rewrite Hw in Et. intros ->. discriminate Et.
    + intros [[Hw _]|[Hb _]]; [exact Hw | discriminate Hb].
  - rewrite dget_text. split.
    + intros Ha. right. split; [reflexivity | exact Ha].
    + intros [[Hw Hne]|[_ Ha]]; [|exact Ha].
      apply dget_text in Hw. rewrite Hw in Et. simpl in Et.
      apply negb_false_iff, String.eqb_eq in Et. contradiction.
Qed.

(** C9. [api_user] answers with the first wallet record of the snapshot whose
    wallet/address field (the [wallet] entry when it is not blank, else the
    [address] entry) is exactly the requested text, and with 404 when no
    record has that field; it never answers with an empty record or an
    error. *)
Theorem api_user_first_exact_match (st : state) (wallet : string) :
  match api_user st wallet with
  | Ok row =>
      exists before l after,
        users st = before ++ l :: after /\
        heap st !! l = Some row /\
        keyed_as row wallet /\
        Forall (fun l' => ~ keyed_as (default ∅ (heap st !! l')) wallet) before
  | NotFound =>
      Forall (fun l => ~ keyed_as (default ∅ (heap st !! l)) wallet) (users st)
  | ServerError => False
  end.
Proof.
  unfold api_user, _find_wallet_row.
  pose proof (find_row_first (heap st) (users st) wallet) as Hf.
  destruct (find_row (heap st) (users st) wallet) as [l|].
  - destruct Hf as (before & after & Hus & Hk & Hb).
    assert (Hrow : heap st !! l = Some (deref (heap st) l)).
    { unfold deref in *. destruct (heap st !! l) as [u|]; [reflexivity|].
      simpl in Hk. rewrite row_key_empty in Hk. discriminate Hk. }
    destruct (truthy (VDict (deref (heap st) l))) eqn:Ht.
    + exists before, l, after. split; [exact Hus|]. split; [exact Hrow|].
      split; [apply row_key_keyed; exact Hk|].
      eapply Forall_impl; [exact Hb|]. intros l' Hl' Hkeyed.
      apply Hl'. apply row_key_keyed. exact Hkeyed.
    + exfalso. simpl in Ht. apply negb_false_iff, Nat.eqb_eq, map_size_empty_iff in Ht.
      rewrite Ht in Hk. discriminate Hk.
  - eapply Forall_impl; [exact Hf|]. intros l' Hl' Hkeyed.
    apply Hl'. apply row_key_keyed. exact Hkeyed.
Qed.

(** ** Search *)

Lemma search_hit_matches `{Runtime} (q : string) (u : dict) :
  q <> "" -> search_hit (lower q) u = record_matches q u.
Proof.
  intros Hq.
  assert (Hl : lower q <> "") by (rewrite lower_empty; exact Hq).
  assert (Hone : forall k,
    truthy (py_or (dget u k) (VStr "")) &&
      contains (lower q) (lower (py_str (py_or (dget u k) (VStr ""))))
    = contains_ci q (field_text u k)).
  { intros k. unfold py_or, field_text, contains_ci.
    destruct (truthy (dget u k)) eqn:E.
    - rewrite E. reflexivity.
    - simpl. rewrite (proj2 (lower_empty "") eq_refl). symmetry.
      apply contains_in_empty. exact Hl. }
  unfold search_hit, record_matches, search_fields. simpl.
  rewrite !Hone. reflexivity.
Qed.

(** C7, as amended. [api_search] trims the query first. A query that is
    empty after trimming gives no match; otherwise the matches are exactly
    the wallet records of the snapshot one of whose four fields contains the
    trimmed query as a case-insensitive substring, in snapshot order. *)
Theorem api_search_trimmed_query `{Runtime} (st : state) (q : option string) :
  let q' := strip (default "" q) in
  api_search st q =
    (q', if String.eqb q' "" then []
         else filter (fun u => record_matches q' u) (deref (heap st) <$> users st)).
Proof.
  intros q'. unfold api_search. fold q'. rewrite truthy_text.
  destruct (String.eqb q' "") eqn:E; simpl; [reflexivity|].
  f_equal. apply list_filter_iff. intros u.
  rewrite search_hit_matches; [reflexivity|].
  intros ->. discriminate E.
Qed.

(** ** The last-seen map *)

Lemma foldl_insert_lookup (g : option string -> option Z) (ks : list (option string)) :
  forall (m : gmap string (option Z)) (w : string),
    foldl (fun out (r : option string * option Z) =>
             match r.1 with
             | None => out
             | Some w => <[w := r.2]> out
             end) m ((fun k => (k, g k)) <$> ks) !! w
    = if bool_decide (Some w ∈ ks) then Some (g (Some w)) else m !! w.
Proof.
  induction ks as [|k ks IH]; intros m w; [reflexivity|].
  rewrite fmap_cons. simpl. rewrite IH.
  destruct (bool_decide (Some w ∈ ks)) eqn:Ein.
  - apply bool_decide_eq_true in Ein.
    rewrite bool_decide_eq_true_2 by (apply elem_of_cons; auto). reflexivity.
  - apply bool_decide_eq_false in Ein.
    destruct k as [w'|].
    + destruct (decide (w' = w)) as [->|Hne].
      * rewrite bool_decide_eq_true_2 by (apply elem_of_cons; auto).
        apply lookup_insert_eq.
      * rewrite bool_decide_eq_false_2
          by (rewrite elem_of_cons; intros [[=]|?]; congruence).
        apply lookup_insert_ne. exact Hne.
    + rewrite bool_decide_eq_false_2
        by (rewrite elem_of_cons; intros [[=]|?]; congruence).
      reflexivity.
Qed.

Lemma foldr_max_opt_none (l : list (option Z)) :
  foldr max_opt None l = None -> Forall (fun x => x = None) l.
Proof.
  induction l as [|[x|] l IH]; simpl; intros Hm.
  - constructor.
  - destruct (foldr max_opt None l); discriminate.
  - constructor; [reflexivity | apply IH; exact Hm].
Qed.

Lemma foldr_max_opt_some (l : list (option Z)) (t : Z) :
  foldr max_opt None l = Some t ->
  Some t ∈ l /\ Forall (fun x => forall y, x = Some y -> y <= t) l.
Proof.
  revert t. induction l as [|[x|] l IH]; simpl; intros t Hm.
  - discriminate.
  - destruct (foldr max_opt None l) as [m|] eqn:Em.
    + injection Hm as <-. destruct (IH m eq_refl) as [Hin Hall].
      split.
      * destruct (Z.max_spec x m) as [[_ ->]|[_ ->]];
          [apply elem_of_cons; right; exact Hin | apply elem_of_cons; left; reflexivity].
      * constructor; [intros y [= <-]; lia|].
        eapply Forall_impl; [exact Hall|]. intros o Ho y Hy. specialize (Ho y Hy). lia.
    + injection Hm as <-. split; [apply elem_of_cons; left; reflexivity|].
      constructor; [intros y [= <-]; lia|].
      eapply Forall_impl; [apply foldr_max_opt_none; exact Em|].
      intros o -> y [=].
  - destruct (IH t Hm) as [Hin Hall]. split; [apply elem_of_cons; right; exact Hin|].
    constructor; [intros y [=] | exact Hall].
Qed.

Lemma foldr_max_opt_newest (l : list (option Z)) (t : Z) :
  Some t ∈ l -> Forall (fun x => forall y, x = Some y -> y <= t) l ->
  foldr max_opt None l = Some t.
Proof.
  intros Hin Hall.
  destruct (foldr max_opt None l) as [m|] eqn:Em.
  - apply foldr_max_opt_some in Em as [Hm Hle]. f_equal.
    rewrite Forall_forall in Hall, Hle.
    pose proof (Hall _ Hm m eq_refl). pose proof (Hle _ Hin t eq_refl). lia.
  - apply foldr_max_opt_none in Em. rewrite Forall_forall in Em.
    discriminate (Em _ Hin).
Qed.

(** The entry of a wallet in the last-seen map. *)
Lemma wallet_last_seen_map_lookup (rows : list worker_seen)
    (hist : option (list history_row)) (w : string) :
  wallet_last_seen_map {| workers_seen := Some rows; wallet_history := hist |} !! w =
    if bool_decide (Some w ∈ ws_wallet <$> rows)
    then Some (foldr max_opt None
                 (ws_last_seen <$> filter (fun r => ws_wallet r = Some w) rows))
    else None.
Proof.
  unfold wallet_last_seen_map, select_max_last_seen. simpl.
  rewrite (foldl_insert_lookup
             (fun k => foldr max_opt None (ws_last_seen <$> filter (fun r => ws_wallet r = k) rows))).
  rewrite lookup_empty.
  rewrite (bool_decide_ext _ (Some w ∈ ws_wallet <$> rows)) by apply elem_of_remove_dups.
  reflexivity.
Qed.

(** The map of a table whose newest row of the wallet [w] has [last_seen] 0
    has the entry 0 for [w]. *)
Lemma wallet_last_seen_map_zero (rows : list worker_seen)
    (hist : option (list history_row)) (w : string) :
  (exists r, r ∈ rows /\ ws_wallet r = Some w /\ ws_last_seen r = Some 0) ->
  (forall r t, r ∈ rows -> ws_wallet r = Some w -> ws_last_seen r = Some t -> t <= 0) ->
  wallet_last_seen_map {| workers_seen := Some rows; wallet_history := hist |} !! w
  = Some (Some 0).
Proof.
  intros (r & Hin & Hw & Hz) Hmax. rewrite wallet_last_seen_map_lookup.
  rewrite bool_decide_eq_true_2
    by (apply list_elem_of_fmap; exists r; split; [congruence | exact Hin]).
  f_equal. apply foldr_max_opt_newest.
  - apply list_elem_of_fmap. exists r. split; [congruence|].
    apply list_elem_of_filter. split; assumption.
  - apply Forall_fmap, Forall_forall. intros r' Hr' y Hy. simpl in Hy.
    apply list_elem_of_filter in Hr' as [Hw' Hin']. eapply Hmax; eassumption.
Qed.

(** The map of the table without the rows of the wallet [w] is the map of
    the table without the entry for [w]. *)
Lemma wallet_last_seen_map_without (rows : list worker_seen)
    (hist hist' : option (list history_row)) (w : string) :
  wallet_last_seen_map
    {| workers_seen := Some (filter (fun r => ws_wallet r <> Some w) rows);
       wallet_history := hist' |}
  = delete w (wallet_last_seen_map {| workers_seen := Some rows; wallet_history := hist |}).
Proof.
  apply map_eq. intros k. rewrite wallet_last_seen_map_lookup.
  destruct (decide (k = w)) as [->|Hne].
  - rewrite lookup_delete_eq. rewrite bool_decide_eq_false_2; [reflexivity|].
    intros Hin. apply list_elem_of_fmap in Hin as (r & Hr & Hin).
    apply list_elem_of_filter in Hin as [Hw _]. congruence.
  - rewrite lookup_delete_ne by congruence. rewrite wallet_last_seen_map_lookup.
    assert (Hf : filter (fun r => ws_wallet r = Some k)
                   (filter (fun r => ws_wallet r <> Some w) rows)
                 = filter (fun r => ws_wallet r = Some k) rows).
    { rewrite list_filter_filter. apply list_filter_iff. intros r.
      split; [tauto|]. intros Hk. split; [exact Hk | congruence]. }
    rewrite Hf.
    rewrite (bool_decide_ext (Some k ∈ ws_wallet <$> filter (fun r => ws_wallet r <> Some w) rows)
               (Some k ∈ ws_wallet <$> rows)); [reflexivity|].
    rewrite !list_elem_of_fmap. split.
    + intros (r & Hr & Hin). apply list_elem_of_filter in Hin as [_ Hin]. eauto.
    + intros (r & Hr & Hin). exists r. split; [exact Hr|].
      apply list_elem_of_filter. split; [congruence | exact Hin].
Qed.

(** ** The filtered pool view *)

Section PoolView.
Context `{Runtime}.
Implicit Types (u : dict) (h : gmap loc dict) (us : list loc)
  (last_map : gmap string (option Z)).

Lemma dget_insert_ne u (k k' : string) (v : value) :
  k <> k' -> dget (<[k := v]> u) k' = dget u k'.
Proof. intros Hne. unfold dget. rewrite lookup_insert_ne; [reflexivity | exact Hne]. Qed.

Lemma dget_insert_eq u (k : string) (v : value) : dget (<[k := v]> u) k = v.
Proof. unfold dget. rewrite lookup_insert_eq. reflexivity. Qed.

(** [attach_last_seen] writes the two annotation keys and nothing else. *)
Lemma attach_other_key (ts : option Z) u (k : string) :
  k <> "last_seen_ts" -> k <> "last_seen" ->
  attach_last_seen ts u !! k = u !! k.
Proof.
  intros H1 H2. unfold attach_last_seen.
  rewrite lookup_insert_ne by congruence.
  rewrite lookup_insert_ne by congruence. reflexivity.
Qed.

Lemma dget_attach_other (ts : option Z) u (k : string) :
  k <> "last_seen_ts" -> k <> "last_seen" ->
  dget (attach_last_seen ts u) k = dget u k.
Proof. intros H1 H2. unfold dget. rewrite attach_other_key; auto. Qed.

Lemma wallet_of_attach (ts : option Z) u : wallet_of (attach_last_seen ts u) = wallet_of u.
Proof. unfold wallet_of. rewrite !dget_attach_other by discriminate. reflexivity. Qed.

Lemma live_signal_attach (ts : option Z) u :
  live_signal (attach_last_seen ts u) = live_signal u.
Proof. unfold live_signal. rewrite !dget_attach_other by discriminate. reflexivity. Qed.

(** The value stored under [last_seen_ts]: the aggregate, 0 read as absent. *)
Lemma dget_attach_ts (ts : option Z) u :
  dget (attach_last_seen ts u) "last_seen_ts" =
    match ts with
    | Some t => if t =? 0 then VNone else VInt t
    | None => VNone
    end.
Proof.
  unfold attach_last_seen. rewrite dget_insert_ne by discriminate.
  apply dget_insert_eq.
Qed.

Lemma attach_idempotent (ts : option Z) u :
  attach_last_seen ts (attach_last_seen ts u) = attach_last_seen ts u.
Proof.
  unfold attach_last_seen. rewrite !dget_insert_eq.
  set (a := match ts with Some t => if t =? 0 then VNone else VInt t | None => VNone end).
  set (b := match a with
            | VInt t => if truthy (VInt t)
                        then match iso_utc t with Some s => VStr s | None => VNone end
                        else VNone
            | _ => VNone
            end).
  apply map_eq. intros k.
  destruct (decide (k = "last_seen")) as [->|Hk1].
  { rewrite !lookup_insert_eq. reflexivity. }
  rewrite !(lookup_insert_ne _ "last_seen") by congruence.
  destruct (decide (k = "last_seen_ts")) as [->|Hk2].
  { rewrite !lookup_insert_eq. reflexivity. }
  rewrite !(lookup_insert_ne _ "last_seen_ts") by congruence.
  rewrite !(lookup_insert_ne _ "last_seen") by congruence.
  rewrite !(lookup_insert_ne _ "last_seen_ts") by congruence.
  reflexivity.
Qed.

Lemma wallet_of_annotate last_map u : wallet_of (annotate last_map u) = wallet_of u.
Proof.
  unfold annotate. destruct (lookup_last_seen last_map (wallet_of u)); [|reflexivity].
  apply wallet_of_attach.
Qed.

Lemma annotate_idempotent last_map u :
  annotate last_map (annotate last_map u) = annotate last_map u.
Proof.
  unfold annotate at 1. rewrite wallet_of_annotate. unfold annotate.
  destruct (lookup_last_seen last_map (wallet_of u)); [|reflexivity].
  apply attach_idempotent.
Qed.

Lemma lookup_last_seen_usable last_map u :
  key_usable u = true <-> lookup_last_seen last_map (wallet_of u) <> None.
Proof.
  unfold key_usable, lookup_last_seen.
  destruct (truthy (wallet_of u)); simpl; [|split; [discriminate | reflexivity]].
  destruct (wallet_of u); simpl; split; congruence.
Qed.

Lemma key_usable_annotate last_map u : key_usable (annotate last_map u) = key_usable u.
Proof. unfold key_usable. rewrite wallet_of_annotate. reflexivity. Qed.

Lemma deref_insert h (l l' : loc) u :
  deref (<[l := u]> h) l' = if decide (l = l') then u else deref h l'.
Proof.
  unfold deref. rewrite lookup_insert. destruct (decide (l = l')); reflexivity.
Qed.

Lemma annotate_deref_insert last_map h (l l' : loc) :
  annotate last_map (deref (<[l := annotate last_map (deref h l)]> h) l')
  = annotate last_map (deref h l').
Proof.
  rewrite deref_insert. destruct (decide (l = l')) as [->|]; [|reflexivity].
  apply annotate_idempotent.
Qed.

Lemma key_usable_deref_insert last_map h (l l' : loc) :
  key_usable (deref (<[l := annotate last_map (deref h l)]> h) l')
  = key_usable (deref h l').
Proof.
  rewrite deref_insert. destruct (decide (l = l')) as [->|]; [|reflexivity].
  apply key_usable_annotate.
Qed.

(** One step of the loop, in terms of [annotate]. *)
Lemma pool_loop_cons last_map (cutoff : Z) h (l : loc) us (acc : list loc) :
  pool_loop last_map cutoff h (l :: us) acc =
    if key_usable (deref h l)
    then pool_loop last_map cutoff (<[l := annotate last_map (deref h l)]> h) us
           (if keep_user cutoff (annotate last_map (deref h l)) then acc ++ [l] else acc)
    else (h, None).
Proof.
  simpl. unfold annotate.
  pose proof (lookup_last_seen_usable last_map (deref h l)) as Hu.
  destruct (lookup_last_seen last_map (wallet_of (deref h l))) as [ts|].
  - replace (key_usable (deref h l)) with true; [reflexivity|].
    symmetry. apply Hu. discriminate.
  - destruct (key_usable (deref h l)); [|reflexivity].
    exfalso. apply Hu; reflexivity.
Qed.

(** The loop on a snapshot all of whose wallet identifiers can be looked up:
    every record of the list is annotated in place, and the references whose
    annotated record has the [keep] flag are appended in order. *)
Lemma pool_loop_usable last_map (cutoff : Z) us : forall h (acc : list loc),
  Forall (fun l => key_usable (deref h l) = true) us ->
  exists h',
    pool_loop last_map cutoff h us acc =
      (h', Some (acc ++ filter (fun l => keep_user cutoff (annotate last_map (deref h l))) us)) /\
    forall x, h' !! x = if decide (x ∈ us) then Some (annotate last_map (deref h x)) else h !! x.
Proof.
  induction us as [|l us IH]; intros h acc Hus.
  - exists h. simpl. rewrite app_nil_r. split; [reflexivity|].
    intros x. destruct (decide (x ∈ [])) as [Hx|]; [|reflexivity].
    apply elem_of_nil in Hx. contradiction.
  - apply Forall_cons in Hus as [Hl Hus].
    rewrite pool_loop_cons, Hl.
    set (h1 := <[l := annotate last_map (deref h l)]> h).
    destruct (IH h1 (if keep_user cutoff (annotate last_map (deref h l))
                     then acc ++ [l] else acc)) as (h' & Heq & Hh').
    { eapply Forall_impl; [exact Hus|]. intros l' Hl'. simpl.
      unfold h1. rewrite key_usable_deref_insert. exact Hl'. }
    exists h'. split.
    + rewrite Heq. f_equal. f_equal.
      rewrite (list_filter_iff _ (fun l0 => keep_user cutoff (annotate last_map (deref h l0))));
        [|intros l'; unfold h1; rewrite annotate_deref_insert; reflexivity].
      rewrite filter_cons.
      destruct (keep_user cutoff (annotate last_map (deref h l))) eqn:Ek.
      * rewrite decide_True by exact I. rewrite <- app_assoc. reflexivity.
      * rewrite decide_False by (intros []). reflexivity.
    + intros x. rewrite Hh'. unfold h1.
      destruct (decide (x ∈ us)) as [Hx|Hx].
      * rewrite decide_True by (apply elem_of_cons; auto).
        rewrite annotate_deref_insert. reflexivity.
      * destruct (decide (x = l)) as [->|Hne].
        -- rewrite decide_True by (apply elem_of_cons; auto).
           rewrite lookup_insert_eq. reflexivity.
        -- rewrite decide_False by (rewrite elem_of_cons; intros [?|?]; contradiction).
           rewrite lookup_insert_ne by congruence. reflexivity.
Qed.

(** The loop raises only on a wallet identifier that cannot be looked up. *)
Lemma pool_loop_raises last_map (cutoff : Z) us : forall h (acc : list loc),
  (pool_loop last_map cutoff h us acc).2 = None ->
  Exists (fun l => key_usable (deref h l) = false) us.
Proof.
  induction us as [|l us IH]; intros h acc; [discriminate|].
  rewrite pool_loop_cons.
  destruct (key_usable (deref h l)) eqn:El; [|intros _; left; exact El].
  intros Hn. right. apply IH in Hn.
  eapply Exists_impl; [exact Hn|]. intros l' Hl'. simpl in Hl'.
  rewrite key_usable_deref_insert in Hl'. exact Hl'.
Qed.

(** What the loop leaves alone, whether it raises or not: the records the
    list does not refer to, and every entry of every record but the two
    annotations. *)
Lemma pool_loop_frame last_map (cutoff : Z) us : forall h (acc : list loc),
  (forall x, x ∉ us -> (pool_loop last_map cutoff h us acc).1 !! x = h !! x) /\
  (forall x (k : string), k <> "last_seen_ts" -> k <> "last_seen" ->
     deref (pool_loop last_map cutoff h us acc).1 x !! k = deref h x !! k).
Proof.
  induction us as [|l us IH]; intros h acc; [split; reflexivity|].
  rewrite pool_loop_cons.
  destruct (key_usable (deref h l)) eqn:El; [|split; reflexivity].
  set (h1 := <[l := annotate last_map (deref h l)]> h).
  destruct (IH h1 (if keep_user cutoff (annotate last_map (deref h l))
                   then acc ++ [l] else acc)) as [IH1 IH2].
  split.
  - intros x Hx. apply not_elem_of_cons in Hx as [Hne Hx].
    rewrite IH1 by exact Hx. unfold h1. rewrite lookup_insert_ne by congruence.
    reflexivity.
  - intros x k Hk1 Hk2. rewrite IH2 by assumption. unfold h1.
    rewrite deref_insert. destruct (decide (l = x)) as [->|]; [|reflexivity].
    unfold annotate. destruct (lookup_last_seen last_map (wallet_of (deref h x)));
      [|reflexivity].
    apply attach_other_key; assumption.
Qed.

Lemma pool_loop_unusable last_map (cutoff : Z) us : forall h (acc : list loc),
  Exists (fun l => key_usable (deref h l) = false) us ->
  (pool_loop last_map cutoff h us acc).2 = None.
Proof.
  induction us as [|l us IH]; intros h acc Hex; [inversion Hex|].
  rewrite pool_loop_cons.
  destruct (key_usable (deref h l)) eqn:El; [|reflexivity].
  apply IH. apply Exists_cons in Hex as [Hl|Hex]; [congruence|].
  eapply Exists_impl; [exact Hex|]. intros l' Hl'. simpl.
  rewrite key_usable_deref_insert. exact Hl'.
Qed.

Lemma filter_fmap_comm {A B} (f : A -> B) (P : B -> Prop) `{!forall b, Decision (P b)}
    (l : list A) :
  filter P (f <$> l) = f <$> filter (fun a => P (f a)) l.
Proof.
  induction l as [|a l IH]; [reflexivity|].
  rewrite fmap_cons, !filter_cons.
  destruct (decide (P (f a))); [rewrite fmap_cons|]; rewrite IH; reflexivity.
Qed.

Lemma live_signal_specified u : live_signal u = hashrate_positive u || has_active_workers u.
Proof.
  unfold live_signal, hashrate_positive, has_active_workers.
  destruct (py_float (py_or (dget u "hashrate1m") (VInt 0))) as [f|];
    [destruct (PrimFloat.ltb 0 f)|]; simpl; try reflexivity;
    destruct (dget u "active_workers") as [| | | | |[|w ws]|]; reflexivity.
Qed.

(** The [keep] flag is the classifier of the specification, read with the
    record's own [last_seen_ts] annotation. *)
Lemma keep_user_isActive (now timeout_s : Z) u :
  keep_user (now - timeout_s) u = isActive u (annotation_ts u) timeout_s now.
Proof.
  unfold keep_user, isActive, annotation_ts. rewrite live_signal_specified.
  destruct (dget u "last_seen_ts"); simpl; try reflexivity.
  destruct (now - timeout_s <=? n); reflexivity.
Qed.

(** The references the loop keeps, as records of the response. *)
Lemma kept_records last_map h h' us (P : dict -> Prop) `{!forall u, Decision (P u)} :
  (forall x, h' !! x = if decide (x ∈ us) then Some (annotate last_map (deref h x)) else h !! x) ->
  deref h' <$> filter (fun l => P (annotate last_map (deref h l))) us
  = filter P (annotate last_map <$> (deref h <$> us)).
Proof.
  intros Hh'. rewrite <- list_fmap_compose, filter_fmap_comm.
  apply list_fmap_ext. intros i l Hl. simpl.
  assert (Hin : l ∈ us).
  { apply list_elem_of_lookup_2 in Hl. apply list_elem_of_filter in Hl. tauto. }
  unfold deref at 1. rewrite Hh', decide_True by exact Hin. reflexivity.
Qed.

(** [api_pool] on a snapshot all of whose wallet identifiers can be looked
    up. *)
Lemma api_pool_usable (st : state) (timeout : int_param) (now : Z) (db : store)
    (rpc : option node) :
  Forall (fun l => key_usable (deref (heap st) l) = true) (users st) ->
  exists h',
    api_pool st timeout now db rpc =
      ({| heap := h'; users := users st; pool := (annotate_pool rpc (pool st)).1;
          extras := extras st |},
       Ok {| view_pool := (annotate_pool rpc (pool st)).2;
             view_users :=
               filter (fun u => keep_user (now - Z.max 0 (int_or timeout 300)) u)
                 (annotate (load_last_map db) <$> (deref (heap st) <$> users st));
             view_extras := extras st |}) /\
    forall x, h' !! x =
      if decide (x ∈ users st)
      then Some (annotate (load_last_map db) (deref (heap st) x))
      else heap st !! x.
Proof.
  intros Hus. unfold api_pool.
  destruct (pool_loop_usable (load_last_map db) (now - Z.max 0 (int_or timeout 300))
              (users st) (heap st) [] Hus) as (h' & Heq & Hh').
  exists h'. split; [|exact Hh'].
  rewrite Heq. simpl. destruct (annotate_pool rpc (pool st)) as [cached out]. simpl.
  do 3 f_equal.
  exact (kept_records _ _ _ _
           (fun u => keep_user (now - Z.max 0 (int_or timeout 300)) u) Hh').
Qed.

(** [api_pool] answers with an error exactly when a wallet identifier cannot
    be looked up. *)
Lemma api_pool_error (st : state) (timeout : int_param) (now : Z) (db : store)
    (rpc : option node) :
  match (api_pool st timeout now db rpc).2 with
  | Ok _ => Forall (fun l => key_usable (deref (heap st) l) = true) (users st)
  | NotFound => False
  | ServerError => Exists (fun l => key_usable (deref (heap st) l) = false) (users st)
  end.
Proof.
  unfold api_pool.
  destruct (pool_loop (load_last_map db) (now - Z.max 0 (int_or timeout 300))
              (heap st) (users st) []) as [h' [filtered|]] eqn:E.
  - destruct (annotate_pool rpc (pool st)) as [cached out]. simpl.
    apply Forall_forall. intros l Hl.
    destruct (key_usable (deref (heap st) l)) eqn:El; [reflexivity|].
    assert (Hex : Exists (fun l => key_usable (deref (heap st) l) = false) (users st)).
    { apply Exists_exists. exists l. auto. }
    apply (pool_loop_unusable (load_last_map db) (now - Z.max 0 (int_or timeout 300))
             _ _ []) in Hex.
    rewrite E in Hex. discriminate Hex.
  - simpl. apply (pool_loop_raises (load_last_map db)
                    (now - Z.max 0 (int_or timeout 300)) _ _ []).
    rewrite E. reflexivity.
Qed.

Lemma annotation_ts_annotate (db : store) u :
  key_usable u = true ->
  annotation_ts (annotate (load_last_map db) u) =
    if truthy (wallet_of u)
    then match persisted_last_seen db u with
         | Some t => if t =? 0 then None else Some t
         | None => None
         end
    else None.
Proof.
  intros Hu. unfold annotate, annotation_ts, persisted_last_seen.
  unfold key_usable in Hu. unfold lookup_last_seen.
  destruct (truthy (wallet_of u)) eqn:Et; simpl in Hu.
  - destruct (wallet_of u) eqn:Ew; try discriminate Hu;
      rewrite dget_attach_ts; try reflexivity.
    destruct (mjoin (load_last_map db !! s)) as [t|]; [|reflexivity].
    destruct (t =? 0); reflexivity.
  - rewrite dget_attach_ts. reflexivity.
Qed.

(** C5, as amended. [api_pool] keeps a wallet record if and only if its
    [last_seen_ts] annotation is not null and is at least
    [now - max(0, timeout)], or its [hashrate1m] is positive, or its list of
    active workers is not empty; the kept records come in snapshot order.
    The annotation is the persisted last-seen aggregate of the wallet, with
    no row, NULL and 0 all read as null. The request fails only on a wallet
    identifier that is a non-empty list or dictionary. *)
Theorem api_pool_keeps_active (st : state) (timeout : int_param) (now : Z)
    (db : store) (rpc : option node) :
  match (api_pool st timeout now db rpc).2 with
  | Ok view =>
      view_users view =
        filter (fun u => isActive u (annotation_ts u) (Z.max 0 (int_or timeout 300)) now)
          (annotate (load_last_map db) <$> (deref (heap st) <$> users st))
  | NotFound => False
  | ServerError => Exists (fun l => key_usable (deref (heap st) l) = false) (users st)
  end /\
  forall u, key_usable u = true ->
    annotation_ts (annotate (load_last_map db) u) =
      if truthy (wallet_of u)
      then match persisted_last_seen db u with
           | Some t => if t =? 0 then None else Some t
           | None => None
           end
      else None.
Proof.
  split; [|intros u; apply annotation_ts_annotate].
  pose proof (api_pool_error st timeout now db rpc) as He.
  destruct ((api_pool st timeout now db rpc).2) as [view| |] eqn:E; [|exact He..].
  destruct (api_pool_usable st timeout now db rpc He) as (h' & Heq & _).
  rewrite Heq in E. simpl in E. injection E as <-. simpl.
  apply list_filter_iff. intros u. rewrite keep_user_isActive. reflexivity.
Qed.

Lemma annotate_store_down (db : store) u :
  store_down db -> key_usable u = true ->
  annotate (load_last_map db) u = attach_last_seen None u.
Proof.
  intros Hd Hu.
  assert (Hm : load_last_map db = ∅).
  { destruct db as [conn|]; [|reflexivity]. simpl in *.
    unfold wallet_last_seen_map. rewrite Hd. reflexivity. }
  rewrite Hm. unfold annotate, lookup_last_seen.
  unfold key_usable in Hu.
  destruct (truthy (wallet_of u)); simpl in Hu; [|reflexivity].
  destruct (wallet_of u); try discriminate Hu; try reflexivity.
Qed.

Lemma keep_user_attach_none (cutoff : Z) u :
  keep_user cutoff (attach_last_seen None u) = hashrate_positive u || has_active_workers u.
Proof.
  unfold keep_user. rewrite dget_attach_ts, live_signal_attach.
  apply live_signal_specified.
Qed.

(** C1, as amended. When the store fails, [api_pool] still answers without
    an error on a snapshot whose wallet identifiers can be looked up; its
    users are the records of the snapshot that show a live signal (a positive
    [hashrate1m] or a non-empty list of active workers), in snapshot order,
    each with null [last_seen_ts] and [last_seen] annotations. No record is
    kept or dropped on account of a last-seen time. *)
Theorem api_pool_store_down (st : state) (timeout : int_param) (now : Z)
    (db : store) (rpc : option node) :
  store_down db ->
  Forall (fun l => key_usable (deref (heap st) l) = true) (users st) ->
  (api_pool st timeout now db rpc).2 =
    Ok {| view_pool := (annotate_pool rpc (pool st)).2;
          view_users :=
            attach_last_seen None <$>
              filter (fun u => hashrate_positive u || has_active_workers u)
                (deref (heap st) <$> users st);
          view_extras := extras st |}.
Proof.
  intros Hd Hus.
  destruct (api_pool_usable st timeout now db rpc Hus) as (h' & Heq & _).
  rewrite Heq. simpl. do 2 f_equal.
  assert (Hann : annotate (load_last_map db) <$> (deref (heap st) <$> users st)
                 = attach_last_seen None <$> (deref (heap st) <$> users st)).
  { apply list_fmap_ext. intros i u Hu. apply annotate_store_down; [exact Hd|].
    apply list_elem_of_lookup_2, list_elem_of_fmap in Hu as (l & -> & Hl).
    rewrite Forall_forall in Hus. apply Hus. exact Hl. }
  rewrite Hann, filter_fmap_comm. f_equal.
  apply list_filter_iff. intros u. rewrite keep_user_attach_none. reflexivity.
Qed.

(** C2, as amended. [api_pool] leaves the snapshot's list of users, its
    other entries, every record outside that list and every entry of every
    record other than [last_seen_ts] and [last_seen] as they were, and the
    pool entry too when there is no node client; but it writes the two
    annotations into the cached wallet records themselves: after a request
    that did not fail, each record of the list is its annotated version. *)
Theorem api_pool_writes_annotations_only (st : state) (timeout : int_param)
    (now : Z) (db : store) (rpc : option node) :
  let st' := (api_pool st timeout now db rpc).1 in
  users st' = users st /\
  extras st' = extras st /\
  (forall x, x ∉ users st -> heap st' !! x = heap st !! x) /\
  (forall x (k : string), k <> "last_seen_ts" -> k <> "last_seen" ->
     deref (heap st') x !! k = deref (heap st) x !! k) /\
  (rpc = None -> pool st' = pool st) /\
  (forall view, (api_pool st timeout now db rpc).2 = Ok view ->
     forall l, l ∈ users st ->
       deref (heap st') l = annotate (load_last_map db) (deref (heap st) l)).
Proof.
  intros st'.
  pose proof (pool_loop_frame (load_last_map db) (now - Z.max 0 (int_or timeout 300))
                (users st) (heap st) []) as [Hf1 Hf2].
  assert (Hheap : heap st' =
            (pool_loop (load_last_map db) (now - Z.max 0 (int_or timeout 300))
               (heap st) (users st) []).1).
  { unfold st', api_pool.
    destruct (pool_loop _ _ _ _ _) as [h [filtered|]]; [|reflexivity].
    destruct (annotate_pool rpc (pool st)); reflexivity. }
  repeat split.
  - unfold st', api_pool. destruct (pool_loop _ _ _ _ _) as [h [filtered|]]; [|reflexivity].
    destruct (annotate_pool rpc (pool st)); reflexivity.
  - unfold st', api_pool. destruct (pool_loop _ _ _ _ _) as [h [filtered|]]; [|reflexivity].
    destruct (annotate_pool rpc (pool st)); reflexivity.
  - intros x Hx. rewrite Hheap. apply Hf1. exact Hx.
  - intros x k Hk1 Hk2. rewrite Hheap. apply Hf2; assumption.
  - intros ->. unfold st', api_pool.
    destruct (pool_loop _ _ _ _ _) as [h [filtered|]]; reflexivity.
  - intros view Hv l Hl.
    pose proof (api_pool_error st timeout now db rpc) as He. rewrite Hv in He.
    destruct (api_pool_usable st timeout now db rpc He) as (h' & Heq & Hh').
    unfold st'. rewrite Heq. simpl. unfold deref at 1.
    rewrite Hh', decide_True by exact Hl. reflexivity.
Qed.

(** An aggregate of 0 is attached as no aggregate is. *)
Lemma attach_zero u : attach_last_seen (Some 0) u = attach_last_seen None u.
Proof. reflexivity. Qed.

Lemma dget_attach_none_iso u : dget (attach_last_seen None u) "last_seen" = VNone.
Proof. unfold attach_last_seen. rewrite dget_insert_eq, dget_insert_eq. reflexivity. Qed.

Lemma annotate_zero last_map u (w : string) :
  last_map !! w = Some (Some 0) -> wallet_of u = VStr w ->
  annotate last_map u = attach_last_seen None u.
Proof.
  intros Hz Hw. unfold annotate, lookup_last_seen. rewrite Hw.
  destruct (truthy (VStr w)); [|reflexivity].
  rewrite Hz. simpl. apply attach_zero.
Qed.

Lemma annotate_delete_zero last_map u (w : string) :
  last_map !! w = Some (Some 0) ->
  annotate last_map u = annotate (delete w last_map) u.
Proof.
  intros Hz. unfold annotate, lookup_last_seen.
  destruct (truthy (wallet_of u)); [|reflexivity].
  destruct (wallet_of u) as [| | | |s| |]; try reflexivity.
  destruct (decide (s = w)) as [->|Hne].
  - rewrite Hz, lookup_delete_eq. simpl. apply attach_zero.
  - rewrite lookup_delete_ne by congruence. reflexivity.
Qed.

Lemma pool_loop_annotate_ext (lm1 lm2 : gmap string (option Z)) (cutoff : Z) us :
  (forall u, annotate lm1 u = annotate lm2 u) ->
  forall h (acc : list loc),
    pool_loop lm1 cutoff h us acc = pool_loop lm2 cutoff h us acc.
Proof.
  intros Hext. induction us as [|l us IH]; intros h acc; [reflexivity|].
  rewrite !pool_loop_cons, Hext.
  destruct (key_usable (deref h l)); [apply IH | reflexivity].
Qed.

Lemma truthy_text_true (w : string) : w <> "" -> truthy (VStr w) = true.
Proof.
  intros Hne. simpl. apply negb_true_iff, String.eqb_neq. exact Hne.
Qed.

Lemma before_dot_free (w : string) :
  dot_free w -> before_dot w = w /\ forall rest, before_dot (w +:+ "." +:+ rest) = w.
Proof.
  unfold dot_free. induction w as [|c w IH]; simpl; intros Hfree.
  - split; reflexivity.
  - apply Forall_cons in Hfree as [Hc Hfree]. destruct (IH Hfree) as [IH1 IH2].
    apply Ascii.eqb_neq in Hc. rewrite Hc. split.
    + rewrite IH1. reflexivity.
    + intros rest. specialize (IH2 rest). simpl in IH2. rewrite IH2. reflexivity.
Qed.

(** The wallet that [api_pool] computes for a record of the wallet [w]. *)
Lemma identified_wallet_of u (w : string) : identified_as u w -> wallet_of u = VStr w.
Proof.
  intros [Hne Hcases]. unfold wallet_of, py_or, py_and.
  pose proof (truthy_text_true w Hne) as Hw.
  destruct Hcases as [[[Hwal _]|[Hbw Hadr]]|(Hbw & Hba & s & Hus & Hfree & Hs)].
  - apply dget_text in Hwal. rewrite Hwal, Hw. reflexivity.
  - apply dget_blank in Hbw. apply dget_text in Hadr. rewrite Hbw, Hadr, Hw. reflexivity.
  - apply dget_blank in Hbw, Hba. apply dget_text in Hus. rewrite Hbw, Hba, Hus.
    destruct (before_dot_free w Hfree) as [Hb1 Hb2].
    assert (Hs' : s <> "").
    { destruct Hs as [->|[rest ->]]; [exact Hne|]. destruct w; [congruence | discriminate]. }
    rewrite (truthy_text_true s Hs'). cbn [py_str]. f_equal.
    destruct Hs as [->|[rest ->]]; [exact Hb1 | apply Hb2].
Qed.

Lemma lookup_attach_none_ts u : attach_last_seen None u !! "last_seen_ts" = Some VNone.
Proof.
  unfold attach_last_seen. rewrite lookup_insert_ne by discriminate.
  apply lookup_insert_eq.
Qed.

Lemma lookup_attach_none_iso u : attach_last_seen None u !! "last_seen" = Some VNone.
Proof.
  unfold attach_last_seen. rewrite lookup_insert_eq, dget_insert_eq. reflexivity.
Qed.

(** C10. A wallet whose persisted last-seen aggregate is exactly 0 (its
    newest [last_seen] in [workers_seen] is 0) is treated by [api_pool] as a
    wallet of which the store has no row: the whole answer, and the state it
    leaves, are those of the store without the rows of that wallet. When the
    request does not fail, every record of that wallet in the snapshot,
    kept or dropped, gets null [last_seen_ts] and [last_seen] annotations and
    keeps its other entries, and it is in the answer exactly when it shows a
    live signal: a positive [hashrate1m] or a list of active workers that is
    not empty. *)
Theorem api_pool_zero_last_seen_as_absent (st : state) (timeout : int_param)
    (now : Z) (rows : list worker_seen) (hist hist' : option (list history_row))
    (rpc : option node) (w : string) :
  let db0 : store := Some {| workers_seen := Some rows; wallet_history := hist |} in
  let db_none : store :=
    Some {| workers_seen := Some (filter (fun r => ws_wallet r <> Some w) rows);
            wallet_history := hist' |} in
  (exists r, r ∈ rows /\ ws_wallet r = Some w /\ ws_last_seen r = Some 0) ->
  (forall r t, r ∈ rows -> ws_wallet r = Some w -> ws_last_seen r = Some t -> t <= 0) ->
  api_pool st timeout now db0 rpc = api_pool st timeout now db_none rpc /\
  match (api_pool st timeout now db0 rpc).2 with
  | Ok view =>
      forall l u, l ∈ users st -> heap st !! l = Some u -> identified_as u w ->
        exists u', heap (api_pool st timeout now db0 rpc).1 !! l = Some u' /\
          u' !! "last_seen_ts" = Some VNone /\
          u' !! "last_seen" = Some VNone /\
          (forall k : string, k <> "last_seen_ts" -> k <> "last_seen" -> u' !! k = u !! k) /\
          (u' ∈ view_users view <-> hashrate_positive u || has_active_workers u = true)
  | NotFound => False
  | ServerError => Exists (fun l => key_usable (deref (heap st) l) = false) (users st)
  end.
Proof.
  intros db0 db_none Hex Hmax.
  assert (Hz : load_last_map db0 !! w = Some (Some 0))
    by (apply wallet_last_seen_map_zero; assumption).
  assert (Hn : load_last_map db_none = delete w (load_last_map db0))
    by apply wallet_last_seen_map_without.
  split.
  { unfold api_pool. rewrite Hn.
    rewrite (pool_loop_annotate_ext (load_last_map db0) (delete w (load_last_map db0)));
      [reflexivity|].
    intros u. apply annotate_delete_zero. exact Hz. }
  pose proof (api_pool_error st timeout now db0 rpc) as He.
  destruct ((api_pool st timeout now db0 rpc).2) as [view| |] eqn:E; [|exact He..].
  destruct (api_pool_usable st timeout now db0 rpc He) as (h' & Heq & Hh').
  rewrite Heq in E |- *. cbn [fst snd heap] in E |- *. injection E as <-. cbn [view_users].
  intros l u Hl Hu Hid.
  assert (Hd : deref (heap st) l = u) by (unfold deref; rewrite Hu; reflexivity).
  pose proof (identified_wallet_of u w Hid) as Hw.
  pose proof (annotate_zero (load_last_map db0) u w Hz Hw) as Han.
  exists (attach_last_seen None u).
  split; [rewrite Hh', decide_True by exact Hl; rewrite Hd, Han; reflexivity|].
  split; [apply lookup_attach_none_ts|].
  split; [apply lookup_attach_none_iso|].
  split; [intros k Hk1 Hk2; apply attach_other_key; assumption|].
  rewrite list_elem_of_filter, keep_user_attach_none. split.
  - intros [Hk _]. apply Is_true_true. exact Hk.
  - intros Hlive. split; [apply Is_true_true; exact Hlive|].
    apply list_elem_of_fmap. exists u. split; [symmetry; exact Han|].
    apply list_elem_of_fmap. exists l. split; [symmetry; exact Hd | exact Hl].
Qed.

End PoolView.

(** ** Worker listing *)

#[global] Instance newer_first_trans : Transitive newer_first.
Proof. intros a b c. unfold newer_first. lia. Qed.

#[global] Instance newer_first_total : Total newer_first.
Proof. intros a b. unfold newer_first. lia. Qed.

#[global] Instance older_first_trans : Transitive older_first.
Proof. intros a b c. unfold older_first. lia. Qed.

#[global] Instance older_first_total : Total older_first.
Proof. intros a b. unfold older_first. lia. Qed.

Lemma workers_limit_range (limit : int_param) : 1 <= workers_limit limit <= 200.
Proof. destruct limit; simpl; lia. Qed.

Lemma workers_offset_nonneg (offset : int_param) : 0 <= workers_offset offset.
Proof. destruct offset; simpl; lia. Qed.

(** C3, as amended. The limit of [api_wallet_workers] is clamped into
    [1, 200]: a value below 1 becomes 1, a value above 200 becomes 200, and
    the limit is 50 when the parameter is missing or is not an integer. The
    offset is clamped to be at least 0, and is 0 when missing or not an
    integer. *)
Theorem workers_limit_offset_clamped (n : Z) :
  workers_limit (Parsed n) = (if n <? 1 then 1 else if 200 <? n then 200 else n) /\
  workers_limit Missing = 50 /\
  workers_limit Malformed = 50 /\
  workers_offset (Parsed n) = (if n <? 0 then 0 else n) /\
  workers_offset Missing = 0 /\
  workers_offset Malformed = 0.
Proof.
  repeat split; simpl.
  - destruct (Z.ltb_spec n 1); [lia|]. destruct (Z.ltb_spec 200 n); lia.
  - destruct (Z.ltb_spec n 0); lia.
Qed.

Lemma select_workers_sorted (tbl : list worker_seen) (wallet : string)
    (since limit offset : Z) :
  exists sorted,
    sorted ≡ₚ filter (fun r => worker_matches wallet since r) tbl /\
    StronglySorted newer_first sorted /\
    select_workers tbl wallet since limit offset =
      take (Z.to_nat limit) (drop (Z.to_nat offset) sorted).
Proof.
  exists (merge_sort newer_first (filter (fun r => worker_matches wallet since r) tbl)).
  split; [apply merge_sort_Permutation|].
  split; [apply StronglySorted_merge_sort; apply _ | reflexivity].
Qed.

Lemma bindable_range (n : Z) : bindable n = true <-> - 2 ^ 63 <= n < 2 ^ 63.
Proof. unfold bindable. rewrite andb_true_iff, Z.leb_le, Z.ltb_lt. reflexivity. Qed.

(** C8, as amended. With the store reachable and the parameters of the two
    statements within 64 bits ([now - timeout] and the clamped offset),
    [total] is the number of rows of [workers_seen] of that wallet whose
    [active] flag is 1 and whose [last_seen] is within the timeout, and the
    workers are the rows from [offset] on, at most [limit] of them, of those
    same rows ordered by [last_seen] descending. With the store failing, or
    with one of these parameters outside 64 bits, [total] is 0 and there are
    no workers. [active] repeats [total]; there are never more than [limit]
    workers; [total] does not depend on the limit, nor on the offset among
    the offsets below [2^63]. *)
Theorem api_wallet_workers_page (wallet : string) (limit offset timeout : int_param)
    (now : Z) (db : store) :
  let v := api_wallet_workers wallet limit offset timeout now db in
  let since := now - int_or timeout 300 in
  let skip := workers_offset offset in
  let counted := fun r : worker_seen =>
    bool_decide (ws_wallet r = Some wallet) &&
    bool_decide (ws_active r = Some 1) &&
    match ws_last_seen r with Some t => since <=? t | None => false end in
  match db with
  | Some {| workers_seen := Some tbl |} =>
      (- 2 ^ 63 <= since < 2 ^ 63 -> skip < 2 ^ 63 ->
       wv_total v = Z.of_nat (length (filter (fun r => counted r) tbl)) /\
       exists sorted,
         sorted ≡ₚ filter (fun r => counted r) tbl /\
         StronglySorted
           (fun a b => default 0 (ws_last_seen b) <= default 0 (ws_last_seen a)) sorted /\
         wv_workers v =
           (fun r => (ws_worker r, ws_last_seen r)) <$>
             take (Z.to_nat (workers_limit limit)) (drop (Z.to_nat skip) sorted)) /\
      (since < - 2 ^ 63 \/ 2 ^ 63 <= since \/ 2 ^ 63 <= skip ->
       wv_total v = 0 /\ wv_workers v = [])
  | _ => wv_total v = 0 /\ wv_workers v = []
  end /\
  wv_active v = wv_total v /\
  Z.of_nat (length (wv_workers v)) <= workers_limit limit /\
  forall limit' offset',
    skip < 2 ^ 63 -> workers_offset offset' < 2 ^ 63 ->
    wv_total (api_wallet_workers wallet limit' offset' timeout now db) = wv_total v.
Proof.
  intros v since skip counted.
  pose proof (workers_limit_range limit) as Hl.
  assert (Hoff : forall o, workers_offset o < 2 ^ 63 -> bindable (workers_offset o) = true).
  { intros o Hlt. apply bindable_range. pose proof (workers_offset_nonneg o). lia. }
  subst v since skip. unfold api_wallet_workers. cbv zeta.
  split; [|split; [|split]].
  - destruct db as [[[tbl|] hist]|]; try (split; reflexivity).
    split.
    + intros Hs Hk.
      rewrite (proj2 (bindable_range _) Hs), (Hoff offset Hk).
      cbn [andb wv_total wv_workers].
      split; [reflexivity|].
      destruct (select_workers_sorted tbl wallet (now - int_or timeout 300)
                  (workers_limit limit) (workers_offset offset))
        as (sorted & Hp & Hsorted & Heq).
      exists sorted. split; [exact Hp|]. split; [exact Hsorted|].
      rewrite <- Heq. reflexivity.
    + intros Hout.
      destruct (bindable (now - int_or timeout 300)) eqn:Es;
        [|split; reflexivity].
      destruct (bindable (workers_offset offset)) eqn:Ek; [|split; reflexivity].
      apply bindable_range in Es, Ek. lia.
  - destruct db as [[[tbl|] hist]|]; try reflexivity.
    destruct (bindable _ && bindable _); reflexivity.
  - destruct db as [[[tbl|] hist]|]; cbn [wv_workers fmap list_fmap length]; try lia.
    destruct (bindable _ && bindable _); cbn [wv_workers fmap list_fmap length]; [|lia].
    rewrite length_fmap. unfold select_workers. rewrite length_take. lia.
  - intros limit' offset' Hk Hk'.
    destruct db as [[[tbl|] hist]|]; try reflexivity.
    rewrite (Hoff offset Hk), (Hoff offset' Hk').
    destruct (bindable _); reflexivity.
Qed.

(** ** History *)




(** ** The in-memory series *)

Lemma deque_append_room {A} (maxlen : Z) (d : list A) (x : A) :
  Z.of_nat (length d) < maxlen -> deque_append maxlen d x = d ++ [x].
Proof.
  intros Hlt. unfold deque_append. rewrite length_app. simpl.
  destruct (Z.ltb_spec maxlen (Z.of_nat (length d + 1))); [lia | reflexivity].
Qed.

Lemma deque_append_full {A} (maxlen : Z) (d : list A) (x : A) :
  1 <= maxlen -> Z.of_nat (length d) = maxlen ->
  deque_append maxlen d x = tail d ++ [x].
Proof.
  intros Hpos Hfull. unfold deque_append. rewrite length_app. simpl.
  destruct (Z.ltb_spec maxlen (Z.of_nat (length d + 1))); [|lia].
  destruct d as [|y d]; [simpl in Hfull; lia | reflexivity].
Qed.

Lemma deque_append_bounded {A} (maxlen : Z) (d : list A) (x : A) :
  0 <= maxlen -> Z.of_nat (length d) <= maxlen ->
  Z.of_nat (length (deque_append maxlen d x)) <= maxlen.
Proof.
  intros Hpos Hlen. unfold deque_append.
  destruct (Z.ltb_spec maxlen (Z.of_nat (length (d ++ [x])))) as [Hlt|Hge]; [|exact Hge].
  destruct d as [|y d]; simpl in *; [lia|]. rewrite length_app. simpl. lia.
Qed.

Section Sampler.
Context `{Runtime}.

(** Every stored deque was built with a [maxlen] that is not negative, and
    holds at most [maxlen] points. *)
Lemma sample_user_bounded (maxlen ts : Z) (hist hist' : history) (u : dict) :
  (forall a d, hist !! a = Some d -> 0 <= maxlen /\ Z.of_nat (length d) <= maxlen) ->
  sample_user maxlen ts hist u = Some hist' ->
  forall a d, hist' !! a = Some d -> 0 <= maxlen /\ Z.of_nat (length d) <= maxlen.
Proof.
  intros Hinv Hs a d Hd. unfold sample_user in Hs.
  destruct (negb (truthy (row_key u))); [injection Hs as <-; eauto|].
  destruct (row_key u) as [| | | |k| |];
    try (destruct (maxlen <? 0); [discriminate|]; injection Hs as <-; eauto);
    try discriminate.
  destruct (hist !! k) as [d0|] eqn:Ek.
  - injection Hs as <-. destruct (Hinv k d0 Ek) as [Hpos Hlen].
    destruct (decide (k = a)) as [->|Hne].
    + rewrite lookup_insert_eq in Hd. injection Hd as <-.
      split; [exact Hpos | apply deque_append_bounded; assumption].
    + rewrite lookup_insert_ne in Hd by exact Hne. eauto.
  - destruct (Z.ltb_spec maxlen 0) as [|Hpos]; [discriminate|]. injection Hs as <-.
    destruct (decide (k = a)) as [->|Hne].
    + rewrite lookup_insert_eq in Hd. injection Hd as <-.
      split; [exact Hpos | apply deque_append_bounded; simpl; lia].
    + rewrite lookup_insert_ne in Hd by exact Hne. eauto.
Qed.

Lemma sample_round_bounded (maxlen ts : Z) (us : list dict) : forall hist : history,
  (forall a d, hist !! a = Some d -> 0 <= maxlen /\ Z.of_nat (length d) <= maxlen) ->
  forall a d, sample_round maxlen ts hist us !! a = Some d ->
    0 <= maxlen /\ Z.of_nat (length d) <= maxlen.
Proof.
  induction us as [|u us IH]; intros hist Hinv; [exact Hinv|]. simpl.
  destruct (sample_user maxlen ts hist u) as [hist'|] eqn:Es; [|exact Hinv].
  apply IH. eapply sample_user_bounded; eassumption.
Qed.

Lemma sampled_bounded (maxlen : Z) (hist : history) :
  sampled maxlen hist ->
  forall a d, hist !! a = Some d -> 0 <= maxlen /\ Z.of_nat (length d) <= maxlen.
Proof.
  induction 1 as [|st ts hist Hs IH].
  - intros a d Hd. rewrite lookup_empty in Hd. discriminate.
  - unfold _bg_sampler. apply sample_round_bounded. exact IH.
Qed.

Lemma history_maxlen_positive (W I : Z) : 1 <= history_maxlen W I <-> Z.max 1 I <= W.
Proof.
  unfold history_maxlen. set (m := Z.max 1 I). assert (0 < m) by lia. split.
  - intros Hq. destruct (Z.le_gt_cases m W) as [|Hlt]; [assumption|].
    assert (W / m < 1) by (apply Z.div_lt_upper_bound; lia). lia.
  - intros Hle. apply Z.div_le_lower_bound; lia.
Qed.

Lemma sample_user_other (maxlen ts : Z) (hist hist' : history) (u : dict) (a : string) :
  sample_user maxlen ts hist u = Some hist' ->
  row_key u <> VStr a -> hist' !! a = hist !! a.
Proof.
  unfold sample_user. intros Hs Hk.
  destruct (negb (truthy (row_key u))); [injection Hs as <-; reflexivity|].
  destruct (row_key u) as [| | | |k| |];
    try (destruct (maxlen <? 0); [discriminate|]; injection Hs as <-; reflexivity);
    try discriminate.
  assert (Hne : k <> a) by congruence.
  destruct (hist !! k).
  - injection Hs as <-. apply lookup_insert_ne. exact Hne.
  - destruct (maxlen <? 0); [discriminate|]. injection Hs as <-.
    apply lookup_insert_ne. exact Hne.
Qed.

Lemma sample_round_other (maxlen ts : Z) (us : list dict) (a : string) :
  Forall (fun u => row_key u <> VStr a) us ->
  forall hist : history, sample_round maxlen ts hist us !! a = hist !! a.
Proof.
  induction 1 as [|u us Hu _ IH]; intros hist; [reflexivity|]. simpl.
  destruct (sample_user maxlen ts hist u) as [hist'|] eqn:Es; [|reflexivity].
  rewrite IH. eapply sample_user_other; eassumption.
Qed.

(** The pass over a record whose key is a text that is not empty. *)
Lemma sample_user_keyed (maxlen ts : Z) (hist : history) (u : dict) (a : string) :
  0 <= maxlen -> row_key u = VStr a -> a <> "" ->
  sample_user maxlen ts hist u =
    Some (<[a := deque_append maxlen (default [] (hist !! a))
                   (ts, default 0%float (py_float (py_or (dget u "hashrate1m") (VInt 0))))]>
            hist).
Proof.
  intros Hpos Hk Hne. unfold sample_user. rewrite Hk, (truthy_text_true a Hne).
  cbn [negb]. destruct (hist !! a) as [d|]; [reflexivity|].
  destruct (Z.ltb_spec maxlen 0); [lia | reflexivity].
Qed.

(** The passes over records that have no key, or a text key other than [a]:
    none raises, and the series of [a] is as it was. *)
Lemma sample_round_quiet (maxlen ts : Z) (us1 us2 : list dict) (a : string) :
  0 <= maxlen ->
  Forall (fun u => truthy (row_key u) = false \/ exists b, b <> a /\ row_key u = VStr b) us1 ->
  forall hist : history, exists hist1 : history,
    sample_round maxlen ts hist (us1 ++ us2) = sample_round maxlen ts hist1 us2 /\
    hist1 !! a = hist !! a.
Proof.
  intros Hpos Hall. induction Hall as [|u us1 Hu _ IH]; intros hist.
  - exists hist. split; reflexivity.
  - assert (Hstep : exists hist', sample_user maxlen ts hist u = Some hist' /\
                                  hist' !! a = hist !! a).
    { destruct (truthy (row_key u)) eqn:Et.
      - destruct Hu as [Hf|(b & Hne & Hb)]; [congruence|].
        assert (Hb' : b <> "") by (intros ->; rewrite Hb in Et; discriminate Et).
        rewrite (sample_user_keyed maxlen ts hist u b Hpos Hb Hb').
        eexists. split; [reflexivity|]. apply lookup_insert_ne. exact Hne.
      - exists hist. split; [|reflexivity]. unfold sample_user. rewrite Et. reflexivity. }
    destruct Hstep as (hist' & Hs & Ha). destruct (IH hist') as (hist1 & Hr & H1).
    exists hist1. split; [|congruence].
    rewrite <- app_comm_cons. cbn [sample_round]. rewrite Hs. exact Hr.
Qed.

(** A round of the sampler over a snapshot in which the records before the
    one keyed as [a] have no key or another text key, and no record after it
    is keyed as [a]: one point is appended to the series of [a]. *)
Lemma sampler_appends (maxlen : Z) (st : state) (ts : Z) (hist : history)
    (before after : list loc) (l : loc) (u : dict) (a : string) :
  0 <= maxlen ->
  users st = before ++ l :: after ->
  heap st !! l = Some u -> keyed_as u a -> a <> "" ->
  (forall l' u', l' ∈ before -> heap st !! l' = Some u' ->
     (entry_blank u' "wallet" /\ entry_blank u' "address") \/
     exists b, b <> a /\ keyed_as u' b) ->
  (forall l' u', l' ∈ after -> heap st !! l' = Some u' -> ~ keyed_as u' a) ->
  _bg_sampler maxlen st ts hist !! a =
    Some (deque_append maxlen (default [] (hist !! a))
            (ts, default 0%float (py_float (py_or (dget u "hashrate1m") (VInt 0))))).
Proof.
  intros Hpos Hus Hu Hk Hne Hbefore Hafter.
  assert (Hb : Forall (fun u => truthy (row_key u) = false \/
                                exists b, b <> a /\ row_key u = VStr b)
                 (deref (heap st) <$> before)).
  { apply Forall_fmap, Forall_forall. intros l' Hl'. simpl. unfold deref.
    destruct (heap st !! l') as [u'|] eqn:El'; simpl; [|left; reflexivity].
    destruct (Hbefore l' u' Hl' El') as [[Hw Ha]|(b & Hba & Hkb)].
    - left. apply dget_blank in Hw, Ha. unfold row_key, py_or. rewrite Hw. exact Ha.
    - right. exists b. split; [exact Hba | apply row_key_keyed; exact Hkb]. }
  assert (Ha : Forall (fun u => row_key u <> VStr a) (deref (heap st) <$> after)).
  { apply Forall_fmap, Forall_forall. intros l' Hl'. simpl. unfold deref.
    destruct (heap st !! l') as [u'|] eqn:El'; simpl; [|discriminate].
    intros Hkey. apply (Hafter l' u' Hl' El'). apply row_key_keyed. exact Hkey. }
  unfold _bg_sampler. rewrite Hus, fmap_app, fmap_cons.
  destruct (sample_round_quiet maxlen ts (deref (heap st) <$> before)
              (deref (heap st) l :: (deref (heap st) <$> after)) a Hpos Hb hist)
    as (hist1 & -> & H1).
  assert (Hd : deref (heap st) l = u) by (unfold deref; rewrite Hu; reflexivity).
  cbn [sample_round]. rewrite Hd.
  rewrite (sample_user_keyed maxlen ts hist1 u a Hpos (proj2 (row_key_keyed u a) Hk) Hne).
  rewrite (sample_round_other _ _ _ _ Ha), lookup_insert_eq, H1. reflexivity.
Qed.

(** C4, as amended. The capacity of every in-memory series is
    [window // max(1, interval)], which is [window // interval] for an
    interval of at least 1; it is at least 1 exactly when
    [max(1, interval) <= window]. A series never holds more points than the
    capacity. Eviction is first in, first out, in the deque and in the
    sampler: a round of [_bg_sampler] over a snapshot with one record of a
    wallet (the records before it having no key or another text key) appends
    the point of the round at the end of the series of that wallet when the
    series has room, and, when the series is full and the capacity is at
    least 1, drops exactly the oldest point and appends the new one. *)
Theorem history_series_bounded_fifo (window interval : Z) :
  let capacity := history_maxlen window interval in
  capacity = window / Z.max 1 interval /\
  (1 <= interval -> capacity = window / interval) /\
  (1 <= capacity <-> Z.max 1 interval <= window) /\
  (forall hist, sampled capacity hist ->
     forall a d, hist !! a = Some d -> Z.of_nat (length d) <= capacity) /\
  (forall (d : list point) (p : point),
     Z.of_nat (length d) < capacity -> deque_append capacity d p = d ++ [p]) /\
  (forall (d : list point) (p : point),
     1 <= capacity -> Z.of_nat (length d) = capacity ->
     deque_append capacity d p = tail d ++ [p]) /\
  (forall (st : state) (ts : Z) (hist : history)
          (before after : list loc) (l : loc) (u : dict) (a : string),
     users st = before ++ l :: after ->
     heap st !! l = Some u -> keyed_as u a -> a <> "" ->
     (forall l' u', l' ∈ before -> heap st !! l' = Some u' ->
        (entry_blank u' "wallet" /\ entry_blank u' "address") \/
        exists b, b <> a /\ keyed_as u' b) ->
     (forall l' u', l' ∈ after -> heap st !! l' = Some u' -> ~ keyed_as u' a) ->
     let p := (ts, default 0%float (py_float (py_or (dget u "hashrate1m") (VInt 0)))) in
     let d := default [] (hist !! a) in
     (Z.of_nat (length d) < capacity ->
      _bg_sampler capacity st ts hist !! a = Some (d ++ [p])) /\
     (1 <= capacity -> Z.of_nat (length d) = capacity ->
      _bg_sampler capacity st ts hist !! a = Some (tail d ++ [p]))).
Proof.
  intros capacity. repeat split.
  - intros Hi. unfold capacity, history_maxlen. rewrite Z.max_r by exact Hi. reflexivity.
  - apply history_maxlen_positive.
  - apply history_maxlen_positive.
  - intros hist Hs a d Hd. apply (sampled_bounded _ _ Hs a d Hd).
  - intros d p. apply deque_append_room.
  - intros d p. apply deque_append_full.
  - intros Hroom.
    rewrite (sampler_appends capacity st ts hist before after l u a) by (assumption || lia).
    f_equal. apply deque_append_room. exact Hroom.
  - intros Hpos Hfull.
    rewrite (sampler_appends capacity st ts hist before after l u a) by (assumption || lia).
    f_equal. apply deque_append_full; assumption.
Qed.

End Sampler.

(** * Further properties of the handlers *)

(** ** The last-seen aggregate *)

(** X1. The entry of a wallet in the last-seen map: there is none when the
    table has no row of that wallet; it is [None] when all the rows of the
    wallet have a NULL [last_seen]; otherwise it is the newest [last_seen]
    among the rows of the wallet. *)
Theorem wallet_last_seen_map_newest (rows : list worker_seen)
    (hist : option (list history_row)) (w : string) :
  let mine := filter (fun r => ws_wallet r = Some w) rows in
  match wallet_last_seen_map {| workers_seen := Some rows; wallet_history := hist |} !! w with
  | None => mine = []
  | Some None => mine <> [] /\ Forall (fun r => ws_last_seen r = None) mine
  | Some (Some t) =>
      (exists r, r ∈ mine /\ ws_last_seen r = Some t) /\
      Forall (fun r => forall x, ws_last_seen r = Some x -> x <= t) mine
  end.
Proof.
  intros mine. unfold wallet_last_seen_map, select_max_last_seen. simpl.
  rewrite (foldl_insert_lookup
             (fun k => foldr max_opt None (ws_last_seen <$> filter (fun r => ws_wallet r = k) rows))).
  rewrite lookup_empty. fold mine.
  destruct (bool_decide (Some w ∈ remove_dups (ws_wallet <$> rows))) eqn:Ein.
  - apply bool_decide_eq_true in Ein.
    apply elem_of_remove_dups, list_elem_of_fmap in Ein as (r0 & Hr0 & Hin0).
    assert (Hmine : r0 ∈ mine) by (apply list_elem_of_filter; split; [congruence | exact Hin0]).
    destruct (foldr max_opt None (ws_last_seen <$> mine)) as [t|] eqn:Em.
    + apply foldr_max_opt_some in Em as [Hin Hall]. split.
      * apply list_elem_of_fmap in Hin as (r & Hr & Hrin). exists r. split; [exact Hrin | congruence].
      * apply Forall_fmap in Hall. exact Hall.
    + split; [intros Hnil; rewrite Hnil in Hmine; apply elem_of_nil in Hmine; exact Hmine|].
      apply foldr_max_opt_none, Forall_fmap in Em. exact Em.
  - apply bool_decide_eq_false in Ein.
    destruct mine as [|r mine'] eqn:Emine; [reflexivity|]. exfalso. apply Ein.
    assert (Hr : r ∈ filter (fun r => ws_wallet r = Some w) rows)
      by (fold mine; rewrite Emine; apply elem_of_cons; left; reflexivity).
    apply list_elem_of_filter in Hr as [Hw Hin].
    apply elem_of_remove_dups, list_elem_of_fmap. exists r. split; [congruence | exact Hin].
Qed.

(** ** More on the filtered pool view *)

Section PoolViewMore.
Context `{Runtime}.
Implicit Types (u : dict) (h : gmap loc dict) (us : list loc)
  (last_map : gmap string (option Z)).

(** A record that is already annotated stays as it is through the loop. *)
Lemma pool_loop_fixed last_map (cutoff : Z) (x : loc) u us :
  annotate last_map u = u ->
  forall h (acc : list loc),
    h !! x = Some u -> (pool_loop last_map cutoff h us acc).1 !! x = Some u.
Proof.
  intros Hfix. induction us as [|l us IH]; intros h acc Hx; [exact Hx|].
  rewrite pool_loop_cons. destruct (key_usable (deref h l)); [|exact Hx].
  apply IH. destruct (decide (l = x)) as [->|Hne].
  - rewrite lookup_insert_eq. unfold deref. rewrite Hx. simpl. rewrite Hfix. reflexivity.
  - rewrite lookup_insert_ne by exact Hne. exact Hx.
Qed.

(** Running the loop again on the heap it left gives the same heap and the
    same kept references. *)
Lemma pool_loop_rerun last_map (cutoff : Z) us : forall h (acc : list loc),
  pool_loop last_map cutoff (pool_loop last_map cutoff h us acc).1 us acc
  = pool_loop last_map cutoff h us acc.
Proof.
  induction us as [|l us IH]; intros h acc; [reflexivity|].
  rewrite (pool_loop_cons _ _ h).
  destruct (key_usable (deref h l)) eqn:El.
  - set (a := annotate last_map (deref h l)).
    set (h1 := <[l := a]> h).
    set (acc1 := if keep_user cutoff a then acc ++ [l] else acc).
    assert (Hl : (pool_loop last_map cutoff h1 us acc1).1 !! l = Some a).
    { apply pool_loop_fixed; [apply annotate_idempotent | apply lookup_insert_eq]. }
    rewrite pool_loop_cons.
    assert (Hd : deref (pool_loop last_map cutoff h1 us acc1).1 l = a)
      by (unfold deref; rewrite Hl; reflexivity).
    rewrite Hd. unfold a at 1. rewrite key_usable_annotate, El.
    unfold a at 1 2. rewrite annotate_idempotent. fold a.
    rewrite (insert_id _ _ _ Hl). fold acc1. apply IH.
  - cbn [fst]. rewrite pool_loop_cons, El. reflexivity.
Qed.

Lemma annotate_pool_rerun (rpc : option node) (p : option dict) :
  annotate_pool rpc (annotate_pool rpc p).1 = annotate_pool rpc p.
Proof.
  unfold annotate_pool. destruct rpc as [n|]; [|reflexivity].
  destruct (getblockcount n) as [blk|].
  - destruct p as [p|]; [|reflexivity]. simpl.
    assert (Hp : <["height" := VInt blk]>
                   (<["block" := VInt blk]>
                      (<["height" := VInt blk]> (<["block" := VInt blk]> p)))
                 = <["height" := VInt blk]> (<["block" := VInt blk]> p)).
    { apply map_eq. intros k. rewrite !lookup_insert.
      repeat case_decide; reflexivity. }
    rewrite Hp. reflexivity.
  - destruct (getbestblockhash n) as [bh|]; [|reflexivity].
    destruct p as [p|]; [|reflexivity]. simpl.
    rewrite (insert_insert_eq _ "bestblockhash"). reflexivity.
Qed.

(** X2. [api_pool] is idempotent: a second request with the same clock,
    store and node answers as the first did and leaves the state the first
    one left. The annotations written into the snapshot do not change what
    a later request computes. *)
Theorem api_pool_idempotent (st : state) (timeout : int_param) (now : Z)
    (db : store) (rpc : option node) :
  api_pool (api_pool st timeout now db rpc).1 timeout now db rpc
  = api_pool st timeout now db rpc.
Proof.
  unfold api_pool.
  pose proof (pool_loop_rerun (load_last_map db) (now - Z.max 0 (int_or timeout 300))
                (users st) (heap st) []) as Hre.
  destruct (pool_loop (load_last_map db) (now - Z.max 0 (int_or timeout 300))
              (heap st) (users st) []) as [h' [filtered|]] eqn:E; simpl in Hre.
  - pose proof (annotate_pool_rerun rpc (pool st)) as Hp.
    destruct (annotate_pool rpc (pool st)) as [cached out] eqn:Ea. simpl in *.
    rewrite Hre, Hp. reflexivity.
  - simpl. rewrite Hre. reflexivity.
Qed.

Lemma keep_user_mono (c1 c2 : Z) u : c2 <= c1 -> keep_user c1 u -> keep_user c2 u.
Proof.
  intros Hc. unfold keep_user. destruct (dget u "last_seen_ts"); try (intros Hk; exact Hk).
  destruct (Z.leb_spec c1 n), (Z.leb_spec c2 n); try (intros Hk; exact Hk); [lia | intros _; exact I].
Qed.

Lemma filter_sublist_impl {A} (P Q : A -> Prop) `{!forall x, Decision (P x)}
    `{!forall x, Decision (Q x)} (l : list A) :
  (forall x, P x -> Q x) -> filter P l `sublist_of` filter Q l.
Proof.
  intros Himp. induction l as [|x l IH]; [constructor|].
  rewrite !filter_cons. destruct (decide (P x)) as [Hp|Hp].
  - rewrite decide_True by (apply Himp; exact Hp). constructor. exact IH.
  - destruct (decide (Q x)); [constructor|]; exact IH.
Qed.

(** X3. A longer timeout never hides a wallet: the users of the answer for
    a timeout are, in order, among the users of the answer for any greater
    timeout. *)
Theorem api_pool_timeout_monotone (st : state) (t1 t2 : int_param) (now : Z)
    (db : store) (rpc : option node) (v1 v2 : pool_view) :
  int_or t1 300 <= int_or t2 300 ->
  (api_pool st t1 now db rpc).2 = Ok v1 ->
  (api_pool st t2 now db rpc).2 = Ok v2 ->
  view_users v1 `sublist_of` view_users v2.
Proof.
  intros Ht H1 H2.
  pose proof (api_pool_error st t1 now db rpc) as He. rewrite H1 in He.
  destruct (api_pool_usable st t1 now db rpc He) as (h1 & Heq1 & _).
  destruct (api_pool_usable st t2 now db rpc He) as (h2 & Heq2 & _).
  rewrite Heq1 in H1. rewrite Heq2 in H2. simpl in H1, H2.
  injection H1 as <-. injection H2 as <-. simpl.
  apply filter_sublist_impl. intros u. apply keep_user_mono. lia.
Qed.

Lemma row_key_annotate last_map u : row_key (annotate last_map u) = row_key u.
Proof.
  unfold annotate. destruct (lookup_last_seen last_map (wallet_of u)); [|reflexivity].
  unfold row_key. rewrite !dget_attach_other by discriminate. reflexivity.
Qed.

Lemma find_row_ext h h' us (w : string) :
  (forall l, l ∈ us -> row_key (deref h' l) = row_key (deref h l)) ->
  find_row h' us w = find_row h us w.
Proof.
  induction us as [|l us IH]; intros Hk; [reflexivity|]. simpl.
  rewrite Hk by (apply elem_of_cons; auto).
  destruct (eq_text (row_key (deref h l)) w); [reflexivity|].
  apply IH. intros l' Hl'. apply Hk. apply elem_of_cons. auto.
Qed.

Lemma find_row_elem h us (w : string) (l : loc) : find_row h us w = Some l -> l ∈ us.
Proof.
  induction us as [|l' us IH]; simpl; [discriminate|].
  destruct (eq_text (row_key (deref h l')) w).
  - intros [= ->]. apply elem_of_cons. auto.
  - intros Hf. apply elem_of_cons. right. apply IH. exact Hf.
Qed.

Lemma attach_not_empty (ts : option Z) u : truthy (VDict (attach_last_seen ts u)) = true.
Proof.
  simpl. apply negb_true_iff, Nat.eqb_neq. intros Hz.
  apply map_size_empty_iff in Hz. unfold attach_last_seen in Hz.
  apply insert_non_empty in Hz. exact Hz.
Qed.

(** X4. The annotations of [api_pool] show in [api_user]: once a pool
    request has been answered, the wallet detail of a wallet of the snapshot
    is its record with the two annotations. *)
Theorem api_user_after_api_pool (st : state) (timeout : int_param) (now : Z)
    (db : store) (rpc : option node) (view : pool_view) (wallet : string) (row : dict) :
  (api_pool st timeout now db rpc).2 = Ok view ->
  api_user st wallet = Ok row ->
  api_user (api_pool st timeout now db rpc).1 wallet
  = Ok (annotate (load_last_map db) row).
Proof.
  intros Hv Hu.
  pose proof (api_pool_error st timeout now db rpc) as He. rewrite Hv in He.
  destruct (api_pool_usable st timeout now db rpc He) as (h' & Heq & Hh').
  rewrite Heq. unfold api_user, _find_wallet_row in *. cbn [fst heap users].
  assert (Hd : forall l, l ∈ users st ->
            deref h' l = annotate (load_last_map db) (deref (heap st) l)).
  { intros l Hl. unfold deref at 1. rewrite Hh', decide_True by exact Hl. reflexivity. }
  rewrite (find_row_ext (heap st) h').
  2:{ intros l Hl. rewrite (Hd l Hl). apply row_key_annotate. }
  destruct (find_row (heap st) (users st) wallet) as [l|] eqn:Ef; [|discriminate].
  destruct (truthy (VDict (deref (heap st) l))); [|discriminate].
  injection Hu as <-.
  pose proof (find_row_elem _ _ _ _ Ef) as Hl.
  rewrite (Hd l Hl).
  assert (Hus : key_usable (deref (heap st) l) = true)
    by (rewrite Forall_forall in He; apply He; exact Hl).
  apply (lookup_last_seen_usable (load_last_map db)) in Hus.
  unfold annotate. destruct (lookup_last_seen (load_last_map db) (wallet_of (deref (heap st) l)))
    as [ts|]; [|congruence].
  rewrite attach_not_empty. reflexivity.
Qed.

Lemma sample_user_ext (maxlen ts : Z) (hist : history) u u' :
  row_key u' = row_key u -> dget u' "hashrate1m" = dget u "hashrate1m" ->
  sample_user maxlen ts hist u' = sample_user maxlen ts hist u.
Proof. intros Hk Hh. unfold sample_user. rewrite Hk, Hh. reflexivity. Qed.

Lemma sample_round_ext (maxlen ts : Z) (us us' : list dict) :
  Forall2 (fun u' u => row_key u' = row_key u /\
                       dget u' "hashrate1m" = dget u "hashrate1m") us' us ->
  forall hist : history, sample_round maxlen ts hist us' = sample_round maxlen ts hist us.
Proof.
  induction 1 as [|u' u us' us [Hk Hh] _ IH]; intros hist; [reflexivity|]. simpl.
  rewrite (sample_user_ext _ _ _ _ _ Hk Hh).
  destruct (sample_user maxlen ts hist u); [apply IH | reflexivity].
Qed.

(** X5. The sampler does not see what [api_pool] writes: a round of the
    sampler after a pool request records what it would have recorded before
    it, whether the request failed or not. *)
Theorem sampler_unaffected_by_api_pool (st : state) (timeout : int_param) (now : Z)
    (db : store) (rpc : option node) (maxlen ts : Z) (hist : history) :
  _bg_sampler maxlen (api_pool st timeout now db rpc).1 ts hist
  = _bg_sampler maxlen st ts hist.
Proof.
  unfold _bg_sampler.
  assert (Hus : users (api_pool st timeout now db rpc).1 = users st).
  { unfold api_pool. destruct (pool_loop _ _ _ _ _) as [h [filtered|]]; [|reflexivity].
    destruct (annotate_pool rpc (pool st)); reflexivity. }
  assert (Hheap : heap (api_pool st timeout now db rpc).1 =
            (pool_loop (load_last_map db) (now - Z.max 0 (int_or timeout 300))
               (heap st) (users st) []).1).
  { unfold api_pool. destruct (pool_loop _ _ _ _ _) as [h [filtered|]]; [|reflexivity].
    destruct (annotate_pool rpc (pool st)); reflexivity. }
  rewrite Hus, Hheap. apply sample_round_ext.
  apply Forall2_fmap, Forall_Forall2_diag, Forall_forall. intros l _.
  destruct (pool_loop_frame (load_last_map db) (now - Z.max 0 (int_or timeout 300))
              (users st) (heap st) []) as [_ Hf].
  unfold row_key, dget. rewrite !Hf by discriminate. split; reflexivity.
Qed.

(** X6. What the node annotation does to the pool entry: it writes no key
    but [block], [height] and [bestblockhash]; [block] and [height] are
    written together with the same value, and [bestblockhash] only when the
    block count could not be had; the snapshot's entry, when there is one,
    is the entry of the answer, and a snapshot without the entry is not
    given one. *)
Theorem annotate_pool_frame (rpc : option node) (p : option dict) :
  let cached := (annotate_pool rpc p).1 in
  let out := (annotate_pool rpc p).2 in
  (forall k : string, k <> "block" -> k <> "height" -> k <> "bestblockhash" ->
     default ∅ out !! k = default ∅ p !! k) /\
  (match p with Some _ => cached = out | None => cached = None end) /\
  (forall n blk, rpc = Some n -> getblockcount n = Some blk ->
     default ∅ out !! "block" = Some (VInt blk) /\
     default ∅ out !! "height" = Some (VInt blk) /\
     default ∅ out !! "bestblockhash" = default ∅ p !! "bestblockhash") /\
  (forall n bh, rpc = Some n -> getblockcount n = None -> getbestblockhash n = Some bh ->
     default ∅ out !! "bestblockhash" = Some (VStr bh) /\
     default ∅ out !! "block" = default ∅ p !! "block" /\
     default ∅ out !! "height" = default ∅ p !! "height") /\
  (rpc = None -> out = p).
Proof.
  intros cached out. unfold cached, out, annotate_pool. repeat split.
  - intros k H1 H2 H3. destruct rpc as [n|]; [|reflexivity].
    destruct (getblockcount n) as [blk|].
    + simpl. rewrite !lookup_insert_ne by congruence. reflexivity.
    + destruct (getbestblockhash n) as [bh|]; [|reflexivity].
      simpl. rewrite lookup_insert_ne by congruence. reflexivity.
  - destruct rpc as [n|]; [|destruct p; reflexivity].
    destruct (getblockcount n) as [blk|]; [destruct p; reflexivity|].
    destruct (getbestblockhash n) as [bh|]; destruct p; reflexivity.
  - subst rpc. rewrite H1. simpl. rewrite lookup_insert_ne by discriminate.
    apply lookup_insert_eq.
  - subst rpc. rewrite H1. simpl. apply lookup_insert_eq.
  - subst rpc. rewrite H1. simpl. rewrite !lookup_insert_ne by discriminate. reflexivity.
  - subst rpc. rewrite H1, H2. simpl. apply lookup_insert_eq.
  - subst rpc. rewrite H1, H2. simpl. rewrite lookup_insert_ne by discriminate. reflexivity.
  - subst rpc. rewrite H1, H2. simpl. rewrite lookup_insert_ne by discriminate. reflexivity.
  - intros ->. reflexivity.
Qed.

End PoolViewMore.

(** ** More on the search *)

Lemma prefix_refl (s : string) : String.prefix s s = true.
Proof.
  induction s as [|c s IH]; [reflexivity|]. simpl.
  destruct (ascii_dec c c); [exact IH | congruence].
Qed.

Lemma contains_refl (s : string) : contains s s = true.
Proof. destruct s; simpl; [reflexivity|]. rewrite prefix_refl. destruct (ascii_dec a a); [reflexivity | congruence]. Qed.

Section SearchMore.
Context `{Runtime}.

Lemma api_search_matches (st : state) (q : option string) :
  (api_search st q).2 =
    if String.eqb (strip (default "" q)) "" then []
    else filter (fun u => search_hit (lower (strip (default "" q))) u)
           (deref (heap st) <$> users st).
Proof.
  unfold api_search. rewrite truthy_text.
  destruct (String.eqb (strip (default "" q)) ""); reflexivity.
Qed.

(** X7. The search is insensitive to the case of the query: two queries
    whose trimmed texts have the same lower case have the same matches. *)
Theorem api_search_query_case (st : state) (q q' : string) :
  lower (strip q) = lower (strip q') ->
  (api_search st (Some q)).2 = (api_search st (Some q')).2.
Proof.
  intros Hs. rewrite !api_search_matches.
  change (default "" (Some q)) with q. change (default "" (Some q')) with q'.
  assert (He : String.eqb (strip q) "" = String.eqb (strip q') "").
  { destruct (String.eqb_spec (strip q) "") as [E|E],
             (String.eqb_spec (strip q') "") as [E'|E']; try reflexivity; exfalso.
    - apply E'. apply lower_empty. rewrite <- Hs, E. apply lower_empty. reflexivity.
    - apply E. apply lower_empty. rewrite Hs, E'. apply lower_empty. reflexivity. }
  rewrite He, Hs. reflexivity.
Qed.

(** X8. A wallet that [api_user] finds is among the matches of [api_search]
    for its own identifier, when the identifier is not empty and has no
    whitespace around it. *)
Theorem api_user_found_by_search (st : state) (wallet : string) (row : dict) :
  wallet <> "" -> strip wallet = wallet ->
  api_user st wallet = Ok row ->
  row ∈ (api_search st (Some wallet)).2.
Proof.
  intros Hne Hstrip Hu. unfold api_user, _find_wallet_row in Hu.
  pose proof (find_row_first (heap st) (users st) wallet) as Hf.
  destruct (find_row (heap st) (users st) wallet) as [l|] eqn:Ef; [|discriminate].
  destruct (truthy (VDict (deref (heap st) l))); [|discriminate].
  injection Hu as <-.
  destruct Hf as (before & after & Hus & Hk & _).
  rewrite api_search_matches. change (default "" (Some wallet)) with wallet.
  rewrite Hstrip.
  assert (Ht : truthy (VStr wallet) = true).
  { destruct wallet; [congruence | reflexivity]. }
  assert (He : String.eqb wallet "" = false).
  { rewrite truthy_text in Ht. apply negb_true_iff in Ht. exact Ht. }
  rewrite He.
  apply list_elem_of_filter. split.
  - apply Is_true_true. unfold search_hit, search_fields.
    rewrite !fmap_cons. cbn [existsb].
    unfold row_key, py_or in Hk.
    assert (Hhit : forall v, v = VStr wallet ->
              truthy (py_or v (VStr "")) &&
                contains (lower wallet) (lower (py_str (py_or v (VStr "")))) = true).
    { intros v ->. unfold py_or. rewrite Ht, Ht. cbn [py_str andb]. apply contains_refl. }
    destruct (truthy (dget (deref (heap st) l) "wallet")).
    + rewrite (Hhit _ Hk). rewrite orb_true_r. reflexivity.
    + rewrite (Hhit _ Hk). reflexivity.
  - apply list_elem_of_fmap. exists l. split; [reflexivity|].
    rewrite Hus. apply elem_of_app. right. apply elem_of_cons. auto.
Qed.

Lemma foldl_append_filter {A} (p : A -> bool) (l : list A) : forall acc : list A,
  foldl (fun acc x => if p x then acc ++ [x] else acc) acc l
  = acc ++ filter (fun x => p x) l.
Proof.
  induction l as [|x l IH]; intros acc; [simpl; rewrite app_nil_r; reflexivity|].
  cbn [foldl]. rewrite IH, filter_cons. destruct (p x) eqn:Ep.
  - rewrite decide_True by exact I. rewrite <- app_assoc. reflexivity.
  - rewrite decide_False by (intros []). reflexivity.
Qed.

Lemma existsb_filter {A} (f g : A -> bool) (l : list A) :
  existsb f (filter (fun x => g x) l) = existsb (fun x => g x && f x) l.
Proof.
  induction l as [|x l IH]; [reflexivity|]. rewrite filter_cons. cbn [existsb].
  destruct (g x) eqn:Eg.
  - rewrite decide_True by exact I. cbn [existsb andb]. rewrite IH. reflexivity.
  - rewrite decide_False by (intros []). exact IH.
Qed.

(** X9. The search page and the search API agree: for every snapshot and
    query they use the same trimmed query and find the same records in the
    same order. *)
Theorem search_page_agrees_with_api (st : state) (q : option string) :
  search_page st q = api_search st q.
Proof.
  unfold search_page, api_search.
  destruct (truthy (VStr (strip (default "" q)))); [|reflexivity].
  f_equal.
  rewrite (foldl_append_filter
             (fun u => existsb (fun f => contains (lower (strip (default "" q))) (lower (py_str f)))
                         (filter (fun f => truthy f)
                            [py_or (dget u "address") (VStr ""); py_or (dget u "wallet") (VStr "");
                             py_or (dget u "user") (VStr ""); py_or (dget u "worker") (VStr "")]))).
  simpl. apply list_filter_iff. intros u. rewrite existsb_filter. reflexivity.
Qed.

End SearchMore.

(** ** The miners page *)

Lemma slice_length {A} (l : list A) (start size : Z) :
  0 <= start -> 0 <= size ->
  Z.of_nat (length (slice l start (start + size))) <= size.
Proof.
  intros Hs Hz. unfold slice. rewrite length_drop, length_take. lia.
Qed.

Lemma slice_next_page {A} (l : list A) (start size : Z) :
  0 <= start -> 0 <= size ->
  take (Z.to_nat (start + size)) l = take (Z.to_nat start) l ++ slice l start (start + size).
Proof.
  intros Hs Hz. unfold slice.
  rewrite <- (take_drop (Z.to_nat start) (take (Z.to_nat (start + size)) l)) at 1.
  rewrite take_take. f_equal. f_equal. lia.
Qed.

Lemma slice_page {A} (l : list A) (page size : Z) :
  1 <= page -> 0 <= size ->
  Z.of_nat (length (slice l ((page - 1) * size) ((page - 1) * size + size))) <= size /\
  take (Z.to_nat (page * size)) l
  = take (Z.to_nat ((page - 1) * size)) l
      ++ slice l ((page - 1) * size) ((page - 1) * size + size).
Proof.
  intros Hp Hs. split; [apply slice_length; nia|].
  replace (page * size) with ((page - 1) * size + size) by lia.
  apply slice_next_page; nia.
Qed.

(** X10. [miners_page] fails exactly when [page] or [size] is not an
    integer. Otherwise the page number is at least 1, the page size is
    within [10, 200], the page holds at most that many users, and the pages
    follow one another without gap or overlap: the users up to the end of a
    page are the users before the page followed by the page. *)
Theorem miners_page_pages (st : state) (page size : int_param) :
  let all := deref (heap st) <$> users st in
  match miners_page st page size with
  | Ok v =>
      page <> Malformed /\ size <> Malformed /\
      1 <= mv_page v /\ 10 <= mv_size v <= 200 /\
      Z.of_nat (length (mv_users v)) <= mv_size v /\
      take (Z.to_nat (mv_page v * mv_size v)) all
      = take (Z.to_nat ((mv_page v - 1) * mv_size v)) all ++ mv_users v
  | NotFound => False
  | ServerError => page = Malformed \/ size = Malformed
  end.
Proof.
  intros all. unfold miners_page. fold all.
  destruct page as [|p|]; try (left; reflexivity);
    (destruct size as [|z|]; try (right; reflexivity));
    cbn [mv_page mv_size mv_users];
    (split; [discriminate|]); (split; [discriminate|]);
    (split; [unfold int_or; lia|]); (split; [unfold int_or; lia|]);
    apply slice_page; unfold int_or; lia.
Qed.

(** ** More on the worker listing *)

Lemma worker_matches_true (wallet : string) (since : Z) (r : worker_seen) :
  worker_matches wallet since r = true ->
  ws_wallet r = Some wallet /\ ws_active r = Some 1 /\
  exists t, ws_last_seen r = Some t /\ since <= t.
Proof.
  unfold worker_matches. intros Hm.
  apply andb_true_iff in Hm as [Hm Ht]. apply andb_true_iff in Hm as [Hw Ha].
  apply bool_decide_eq_true in Hw. apply bool_decide_eq_true in Ha.
  destruct (ws_last_seen r) as [t|]; [|discriminate].
  repeat split; [exact Hw | exact Ha |]. exists t. split; [reflexivity | lia].
Qed.

Lemma select_workers_subseteq (tbl : list worker_seen) (wallet : string)
    (since limit offset : Z) (r : worker_seen) :
  r ∈ select_workers tbl wallet since limit offset ->
  r ∈ tbl /\ worker_matches wallet since r = true.
Proof.
  unfold select_workers. intros Hr.
  apply subseteq_take, subseteq_drop in Hr.
  rewrite merge_sort_Permutation in Hr.
  apply list_elem_of_filter in Hr as [Hm Hin]. split; [exact Hin|].
  apply Is_true_true. exact Hm.
Qed.

(** X11. What [api_wallet_workers] lists: never more workers than [total],
    and none when the offset reaches [total]; [active] repeats [total]; and
    every listed worker is a row of the store of that wallet, with [active]
    1 and a [last_seen] within the timeout, shown with its name and its
    [last_seen]. *)
Theorem api_wallet_workers_listed (wallet : string) (limit offset timeout : int_param)
    (now : Z) (db : store) :
  let v := api_wallet_workers wallet limit offset timeout now db in
  Z.of_nat (length (wv_workers v)) <= wv_total v /\
  wv_active v = wv_total v /\
  (wv_total v <= workers_offset offset -> wv_workers v = []) /\
  forall name seen, (name, seen) ∈ wv_workers v ->
    exists tbl hist r t,
      db = Some {| workers_seen := Some tbl; wallet_history := hist |} /\
      r ∈ tbl /\
      ws_wallet r = Some wallet /\ ws_active r = Some 1 /\
      ws_last_seen r = Some t /\ now - int_or timeout 300 <= t /\
      name = ws_worker r /\ seen = Some t.
Proof.
  intros v. unfold v, api_wallet_workers. cbv zeta.
  destruct db as [[[tbl|] hist]|]; cbn [wv_workers wv_total wv_active];
    try (repeat split; [simpl; lia | intros name seen Hin; apply elem_of_nil in Hin; contradiction]).
  destruct (bindable _ && bindable _); cbn [wv_workers wv_total wv_active];
    try (repeat split; [simpl; lia | intros name seen Hin; apply elem_of_nil in Hin; contradiction]).
  assert (Hlen : length (merge_sort newer_first
                   (filter (fun r => worker_matches wallet (now - int_or timeout 300) r) tbl))
                 = length (filter (fun r => worker_matches wallet (now - int_or timeout 300) r) tbl))
    by (apply Permutation_length, merge_sort_Permutation).
  repeat split.
  - rewrite length_fmap. unfold select_workers, count_workers.
    rewrite length_take, length_drop, Hlen. lia.
  - intros Hoff. unfold select_workers, count_workers in *.
    rewrite drop_ge; [rewrite take_nil; reflexivity|].
    rewrite Hlen. pose proof (workers_offset_nonneg offset). lia.
  - intros name seen Hin.
    apply list_elem_of_fmap in Hin as (r & Hr & Hin). injection Hr as -> ->.
    apply select_workers_subseteq in Hin as [Hin Hm].
    apply worker_matches_true in Hm as (Hw & Ha & t & Ht & Hle).
    exists tbl, hist, r, t. repeat split; assumption.
Qed.

(** ** More on the sampler and the history *)

Lemma deque_append_ends {A} (maxlen : Z) (d : list A) (x : A) :
  1 <= maxlen -> exists d', deque_append maxlen d x = d' ++ [x].
Proof.
  intros Hpos. unfold deque_append.
  destruct (Z.ltb_spec maxlen (Z.of_nat (length (d ++ [x])))) as [Hlt|_]; [|exists d; reflexivity].
  destruct d as [|y d]; [simpl in Hlt; lia|]. exists d. reflexivity.
Qed.

Lemma deque_append_sorted (maxlen : Z) (d : list point) (x : point) :
  StronglySorted (fun p q : point => p.1 <= q.1) d ->
  Forall (fun p : point => p.1 <= x.1) d ->
  StronglySorted (fun p q : point => p.1 <= q.1) (deque_append maxlen d x) /\
  Forall (fun p : point => p.1 <= x.1) (deque_append maxlen d x).
Proof.
  intros Hs Hb.
  assert (Hs' : StronglySorted (fun p q : point => p.1 <= q.1) (d ++ [x])).
  { apply StronglySorted_app_2; [|exact Hs | repeat constructor].
    intros p q Hp Hq. apply list_elem_of_singleton in Hq as ->.
    rewrite Forall_forall in Hb. apply Hb. exact Hp. }
  assert (Hb' : Forall (fun p : point => p.1 <= x.1) (d ++ [x])).
  { apply Forall_app. split; [exact Hb|]. repeat constructor. lia. }
  unfold deque_append. destruct (maxlen <? Z.of_nat (length (d ++ [x]))); [|split; assumption].
  destruct (d ++ [x]) as [|y l]; [split; assumption|]. simpl.
  apply StronglySorted_cons in Hs' as [_ Hs']. apply Forall_cons in Hb' as [_ Hb'].
  split; assumption.
Qed.

Section SamplerMore.
Context `{Runtime}.

(** X12. A round of the sampler leaves alone the series of every wallet
    that is not in the snapshot, whether the round ends with an exception or
    not. *)
Theorem sampler_other_series_untouched (maxlen : Z) (st : state) (ts : Z)
    (hist : history) (a : string) :
  Forall (fun l => row_key (deref (heap st) l) <> VStr a) (users st) ->
  _bg_sampler maxlen st ts hist !! a = hist !! a.
Proof.
  unfold _bg_sampler. intros Hall.
  assert (Hus : Forall (fun u => row_key u <> VStr a) (deref (heap st) <$> users st))
    by (apply Forall_fmap; exact Hall).
  clear Hall. revert hist.
  induction Hus as [|u us Hu _ IH]; intros hist; [reflexivity|]. simpl.
  destruct (sample_user maxlen ts hist u) as [hist'|] eqn:Es; [|reflexivity].
  rewrite IH. eapply sample_user_other; eassumption.
Qed.

Lemma sample_user_stamp (maxlen ts : Z) (hist : history) (u : dict) (a : string) :
  1 <= maxlen ->
  truthy (row_key u) = false \/ hashable (row_key u) = true ->
  exists hist', sample_user maxlen ts hist u = Some hist' /\
    ((row_key u = VStr a /\ a <> "" \/
      exists d v, hist !! a = Some (d ++ [(ts, v)])) ->
     exists d v, hist' !! a = Some (d ++ [(ts, v)])).
Proof.
  intros Hpos Hok. unfold sample_user.
  destruct (truthy (row_key u)) eqn:Et; simpl.
  2:{ exists hist. split; [reflexivity|]. intros [[Hk Hne]|Hold]; [|exact Hold].
      rewrite Hk in Et. destruct a; [congruence | discriminate]. }
  destruct Hok as [|Hh]; [congruence|].
  destruct (Z.ltb_spec maxlen 0) as [|_]; [lia|].
  set (v := default 0%float (py_float (py_or (dget u "hashrate1m") (VInt 0)))).
  destruct (row_key u) as [| | | |k| |] eqn:Ek; try discriminate Hh;
    try (exists hist; split; [reflexivity|]; intros [[Hk _]|Hold]; [discriminate | exact Hold]).
  assert (Hup : forall d0, exists d1 v1,
            <[k := deque_append maxlen d0 (ts, v)]> hist !! k = Some (d1 ++ [(ts, v1)])).
  { intros d0. destruct (deque_append_ends maxlen d0 (ts, v) Hpos) as (d1 & ->).
    exists d1, v. apply lookup_insert_eq. }
  assert (Hkeep : forall d0, (row_key u = VStr a /\ a <> "" \/
                              exists d v', hist !! a = Some (d ++ [(ts, v')])) ->
            exists d v', <[k := deque_append maxlen d0 (ts, v)]> hist !! a
                         = Some (d ++ [(ts, v')])).
  { intros d0 Hcase. destruct (decide (k = a)) as [<-|Hne]; [apply Hup|].
    rewrite lookup_insert_ne by exact Hne.
    destruct Hcase as [[Hk _]|Hold]; [congruence | exact Hold]. }
  destruct (hist !! k) as [d0|].
  - eexists. split; [reflexivity|]. rewrite <- Ek. apply Hkeep.
  - eexists. split; [reflexivity|]. rewrite <- Ek. apply Hkeep.
Qed.

Lemma sample_round_stamp (maxlen ts : Z) (us : list dict) (a : string) :
  1 <= maxlen ->
  Forall (fun u => truthy (row_key u) = false \/ hashable (row_key u) = true) us ->
  forall hist : history,
    (Exists (fun u => row_key u = VStr a /\ a <> "") us \/
     exists d v, hist !! a = Some (d ++ [(ts, v)])) ->
    exists d v, sample_round maxlen ts hist us !! a = Some (d ++ [(ts, v)]).
Proof.
  intros Hpos Hall. induction Hall as [|u us Hu _ IH]; intros hist Hcase.
  - destruct Hcase as [Hex|Hold]; [inversion Hex | exact Hold].
  - simpl. destruct (sample_user_stamp maxlen ts hist u a Hpos Hu) as (hist' & -> & Hst).
    apply IH. destruct Hcase as [Hex|Hold].
    + apply Exists_cons in Hex as [Hhere|Hlater]; [right; apply Hst; left; exact Hhere | left; exact Hlater].
    + right. apply Hst. right. exact Hold.
Qed.

(** X13. With a capacity of at least 1 and wallet keys that can be hashed, a
    round of the sampler gives every wallet of the snapshot that has a
    non-empty text key a point stamped with the time of the round, at the
    end of its series. *)
Theorem sampler_stamps_every_wallet (maxlen : Z) (st : state) (ts : Z)
    (hist : history) (l : loc) (a : string) :
  1 <= maxlen ->
  Forall (fun l => truthy (row_key (deref (heap st) l)) = false \/
                   hashable (row_key (deref (heap st) l)) = true) (users st) ->
  l ∈ users st -> row_key (deref (heap st) l) = VStr a -> a <> "" ->
  exists d v, _bg_sampler maxlen st ts hist !! a = Some (d ++ [(ts, v)]).
Proof.
  intros Hpos Hall Hl Hk Hne. unfold _bg_sampler.
  apply sample_round_stamp; [exact Hpos | apply Forall_fmap; exact Hall |].
  left. apply Exists_exists. exists (deref (heap st) l).
  split; [apply list_elem_of_fmap_2; exact Hl | split; assumption].
Qed.

Lemma sample_user_sorted (maxlen ts : Z) (hist hist' : history) (u : dict) :
  (forall a d, hist !! a = Some d ->
     StronglySorted (fun p q : point => p.1 <= q.1) d /\
     Forall (fun p : point => p.1 <= ts) d) ->
  sample_user maxlen ts hist u = Some hist' ->
  forall a d, hist' !! a = Some d ->
    StronglySorted (fun p q : point => p.1 <= q.1) d /\
    Forall (fun p : point => p.1 <= ts) d.
Proof.
  intros Hinv Hs a d Hd. unfold sample_user in Hs.
  destruct (negb (truthy (row_key u))); [injection Hs as <-; eauto|].
  set (v := default 0%float (py_float (py_or (dget u "hashrate1m") (VInt 0)))) in Hs.
  destruct (row_key u) as [| | | |k| |];
    try (destruct (maxlen <? 0); [discriminate|]; injection Hs as <-; eauto);
    try discriminate.
  assert (Hnew : forall d0,
            StronglySorted (fun p q : point => p.1 <= q.1) d0 /\
            Forall (fun p : point => p.1 <= ts) d0 ->
            <[k := deque_append maxlen d0 (ts, v)]> hist !! a = Some d ->
            StronglySorted (fun p q : point => p.1 <= q.1) d /\
            Forall (fun p : point => p.1 <= ts) d).
  { intros d0 [Hs0 Hb0] Hlk. destruct (decide (k = a)) as [->|Hne].
    - rewrite lookup_insert_eq in Hlk. injection Hlk as <-.
      apply (deque_append_sorted maxlen d0 (ts, v)); assumption.
    - rewrite lookup_insert_ne in Hlk by exact Hne. eauto. }
  destruct (hist !! k) as [d0|] eqn:Ek.
  - injection Hs as <-. apply (Hnew d0); [eauto | exact Hd].
  - destruct (maxlen <? 0); [discriminate|]. injection Hs as <-.
    apply (Hnew []); [split; constructor | exact Hd].
Qed.

(** X14. The sampler keeps every series in time order: when the clock does
    not go back, series that are sorted by time and hold no point later
    than the previous round are still sorted after a round, and hold no
    point later than this round. *)
Theorem sampler_keeps_series_sorted (maxlen : Z) (st : state) (t0 ts : Z)
    (hist : history) :
  t0 <= ts ->
  (forall a d, hist !! a = Some d ->
     StronglySorted (fun p q : point => p.1 <= q.1) d /\
     Forall (fun p : point => p.1 <= t0) d) ->
  forall a d, _bg_sampler maxlen st ts hist !! a = Some d ->
    StronglySorted (fun p q : point => p.1 <= q.1) d /\
    Forall (fun p : point => p.1 <= ts) d.
Proof.
  intros Hclock Hinv. unfold _bg_sampler.
  assert (Hinv' : forall a d, hist !! a = Some d ->
            StronglySorted (fun p q : point => p.1 <= q.1) d /\
            Forall (fun p : point => p.1 <= ts) d).
  { intros a d Hd. destruct (Hinv a d Hd) as [Hs Hb]. split; [exact Hs|].
    eapply Forall_impl; [exact Hb|]. intros p Hp. simpl in Hp. lia. }
  clear Hinv. revert hist Hinv'.
  induction (deref (heap st) <$> users st) as [|u us IH]; intros hist Hinv; [exact Hinv|].
  simpl. destruct (sample_user maxlen ts hist u) as [hist'|] eqn:Es; [|exact Hinv].
  apply IH. eapply sample_user_sorted; eassumption.
Qed.

End SamplerMore.

Lemma filter_sorted_suffix (cutoff : Z) (d : list point) :
  StronglySorted (fun p q : point => p.1 <= q.1) d ->
  exists k, filter (fun p : point => cutoff <= p.1) d = drop k d.
Proof.
  induction 1 as [|x d Hs IH Hall].
  - exists 0%nat. reflexivity.
  - rewrite filter_cons. destruct (decide (cutoff <= x.1)) as [Hx|Hx].
    + exists 0%nat. simpl. f_equal.
      assert (Hd : Forall (fun p : point => cutoff <= p.1) d).
      { eapply Forall_impl; [exact Hall|]. intros p Hp. simpl in Hp. lia. }
      clear -Hd. induction Hd as [|p d Hp _ IHd]; [reflexivity|].
      rewrite filter_cons, decide_True by exact Hp. f_equal. exact IHd.
    + destruct IH as [k Hk]. exists (S k). exact Hk.
Qed.

(** X15. When the store fails and the series of the wallet is in time
    order, [api_history] answers with the most recent part of the series:
    the series with some of its oldest points dropped. *)
Theorem api_history_memory_suffix (hist : history) (addr : string)
    (window : int_param) (now : Z) (db : store) :
  db = None \/ (exists conn, db = Some conn /\ wallet_history conn = None) ->
  StronglySorted (fun p q : point => p.1 <= q.1) (default [] (hist !! addr)) ->
  exists k, (api_history hist addr window now db).2 = drop k (default [] (hist !! addr)).
Proof.
  intros Hdown Hs.
  assert (Hmem : (api_history hist addr window now db).2 =
            filter (fun p : point => now - Z.max 60 (int_or window (6 * 3600)) <= p.1)
              (default [] (hist !! addr))).
  { destruct Hdown as [->|(conn & -> & Hc)]; [reflexivity|].
    destruct conn as [ws wh]. simpl in Hc. subst wh. reflexivity. }
  rewrite Hmem. apply filter_sorted_suffix. exact Hs.
Qed.

(** ** The stand-in state *)

(** X16. With the stand-in state, which has no users, every handler answers
    and answers with nothing: no wallet is found, no search matches, the
    pool view and the miners page have no users, and the sampler records
    nothing. *)
Theorem empty_snapshot_serves_nothing `{Runtime} (wallet : string) (q : option string)
    (timeout : int_param) (now : Z) (db : store) (rpc : option node)
    (maxlen ts : Z) (hist : history) :
  api_user empty_snapshot wallet = NotFound /\
  (api_search empty_snapshot q).2 = [] /\
  (api_pool empty_snapshot timeout now db rpc).2 =
    Ok {| view_pool := (annotate_pool rpc (Some ∅)).2;
          view_users := [];
          view_extras := {[ "totals" := VDict ∅ ]} |} /\
  (forall page size v, miners_page empty_snapshot page size = Ok v -> mv_users v = []) /\
  _bg_sampler maxlen empty_snapshot ts hist = hist.
Proof.
  repeat split.
  - unfold api_search. destruct (truthy _); reflexivity.
  - unfold api_pool. simpl. destruct (annotate_pool rpc (Some ∅)); reflexivity.
  - intros page size v Hv. unfold miners_page in Hv.
    destruct page, size; try discriminate; injection Hv as <-; simpl;
      unfold slice; rewrite take_nil, drop_nil; reflexivity.
Qed.

(** ** What the answers carry *)

Section AnswersMore.
Context `{Runtime}.

Lemma attach_shape (ts : option Z) (u : dict) :
  let u' := attach_last_seen ts u in
  (u' !! "last_seen_ts" = Some VNone /\ u' !! "last_seen" = Some VNone) \/
  (exists t, t <> 0 /\ u' !! "last_seen_ts" = Some (VInt t) /\
     u' !! "last_seen" = Some (match iso_utc t with Some s => VStr s | None => VNone end)).
Proof.
  intros u'. unfold u', attach_last_seen. rewrite dget_insert_eq.
  rewrite lookup_insert_eq, lookup_insert_ne by discriminate. rewrite lookup_insert_eq.
  destruct ts as [t|]; [|left; split; reflexivity].
  destruct (Z.eqb_spec t 0) as [->|Hne]; [left; split; reflexivity|].
  right. exists t. split; [exact Hne|]. split; [reflexivity|].
  simpl. destruct (Z.eqb_spec t 0); [contradiction | reflexivity].
Qed.

(** X17. Every wallet of an answer of [api_pool] carries both annotations:
    either [last_seen_ts] and [last_seen] are both null, or [last_seen_ts]
    is an integer other than 0 and [last_seen] is its ISO rendering (null
    when the rendering fails). *)
Theorem api_pool_answer_annotated (st : state) (timeout : int_param) (now : Z)
    (db : store) (rpc : option node) :
  match (api_pool st timeout now db rpc).2 with
  | Ok view =>
      Forall (fun u : dict =>
                (u !! "last_seen_ts" = Some VNone /\ u !! "last_seen" = Some VNone) \/
                (exists t, t <> 0 /\ u !! "last_seen_ts" = Some (VInt t) /\
                   u !! "last_seen" =
                     Some (match iso_utc t with Some s => VStr s | None => VNone end)))
        (view_users view)
  | _ => True
  end.
Proof.
  pose proof (api_pool_error st timeout now db rpc) as He.
  destruct ((api_pool st timeout now db rpc).2) as [view| |] eqn:E; [|exact I..].
  destruct (api_pool_usable st timeout now db rpc He) as (h' & Heq & _).
  rewrite Heq in E. simpl in E. injection E as <-. cbn [view_users].
  apply Forall_forall. intros u Hu.
  apply list_elem_of_filter in Hu as [_ Hu].
  apply list_elem_of_fmap in Hu as (u0 & -> & Hu0).
  apply list_elem_of_fmap in Hu0 as (l & -> & Hl).
  rewrite Forall_forall in He. specialize (He l Hl).
  apply (lookup_last_seen_usable (load_last_map db)) in He.
  unfold annotate.
  destruct (lookup_last_seen (load_last_map db) (wallet_of (deref (heap st) l))) as [ts|];
    [|congruence].
  apply attach_shape.
Qed.

(** X18. A sample is served from memory: with a capacity of at least 1 and
    wallet keys that can be hashed, after a round of the sampler at a time
    within the window, [api_history] with the store down answers for every
    wallet of the snapshot with a point taken at that time. *)
Theorem sample_served_from_memory (maxlen : Z) (st : state) (ts : Z) (hist : history)
    (l : loc) (a : string) (window : int_param) (now : Z) :
  1 <= maxlen ->
  Forall (fun l => truthy (row_key (deref (heap st) l)) = false \/
                   hashable (row_key (deref (heap st) l)) = true) (users st) ->
  l ∈ users st -> row_key (deref (heap st) l) = VStr a -> a <> "" ->
  now - Z.max 60 (int_or window (6 * 3600)) <= ts ->
  exists v, (ts, v) ∈ (api_history (_bg_sampler maxlen st ts hist) a window now None).2.
Proof.
  intros Hpos Hall Hl Hk Hne Hwin.
  destruct (sample_round_stamp maxlen ts (deref (heap st) <$> users st) a Hpos) with (hist := hist)
    as (d & v & Hd).
  { apply Forall_fmap. exact Hall. }
  { left. apply Exists_exists. exists (deref (heap st) l).
    split; [apply list_elem_of_fmap_2; exact Hl | split; assumption]. }
  exists v. unfold api_history, _bg_sampler. cbn [snd]. rewrite Hd. cbn [default from_option id].
  apply list_elem_of_filter. split; [exact Hwin|].
  apply elem_of_app. right. apply elem_of_cons. left. reflexivity.
Qed.

End AnswersMore.

(** * Examples, witnesses and counterexamples *)

#[local] Existing Instance Sample.runtime.

(** The two examples of the specification for the search. *)
Example api_search_empty_query :
  api_search Sample.abc (Some "") = ("", []) /\
  api_search Sample.abc None = ("", []).
Proof. split; reflexivity. Qed.

Example api_search_case_insensitive :
  api_search Sample.abc (Some "ABC") = ("ABC", [Sample.abc_record]).
Proof. vm_compute. reflexivity. Qed.

(** The match of [api_user] is case-sensitive. *)
Example api_user_case_sensitive :
  api_user Sample.abc "abc123" = Ok Sample.abc_record /\
  api_user Sample.abc "ABC123" = NotFound.
Proof. split; vm_compute; reflexivity. Qed.

(** C1, as the specification states it, fails: with the store down, the idle
    wallet of the snapshot is not in the answer, and the busy one is there
    with two more entries. *)
Lemma api_pool_store_down_drops_idle :
  (api_pool Sample.snapshot Missing Sample.now None None).2 =
    Ok {| view_pool := Some ∅;
          view_users := [ <["last_seen" := VNone]> (<["last_seen_ts" := VNone]> Sample.busy) ];
          view_extras := ∅ |} /\
  deref (heap Sample.snapshot) <$> users Sample.snapshot = [Sample.idle; Sample.busy].
Proof. split; vm_compute; reflexivity. Qed.

Lemma api_pool_store_down_witness :
  store_down None /\
  Forall (fun l => key_usable (deref (heap Sample.snapshot) l) = true)
    (users Sample.snapshot) /\
  (api_pool Sample.snapshot Missing Sample.now None None).2 =
    Ok {| view_pool := (annotate_pool None (pool Sample.snapshot)).2;
          view_users :=
            attach_last_seen None <$>
              filter (fun u => hashrate_positive u || has_active_workers u)
                (deref (heap Sample.snapshot) <$> users Sample.snapshot);
          view_extras := extras Sample.snapshot |}.
Proof.
  assert (Hd : store_down None) by exact I.
  assert (Hu : Forall (fun l => key_usable (deref (heap Sample.snapshot) l) = true)
                 (users Sample.snapshot)).
  { repeat constructor. }
  split; [exact Hd|]. split; [exact Hu|].
  exact (api_pool_store_down Sample.snapshot Missing Sample.now None None Hd Hu).
Defined.

(** C2, as the specification states it, fails: after a request the cached
    record of the busy wallet holds the two annotations. *)
Lemma api_pool_writes_into_snapshot :
  let db := Sample.store_of [Sample.seen "bc1busy" "rig1" (Sample.now - 10) 1] in
  let st' := (api_pool Sample.snapshot Missing Sample.now db None).1 in
  deref (heap Sample.snapshot) 1%nat !! "last_seen_ts" = None /\
  deref (heap st') 1%nat !! "last_seen_ts" = Some (VInt 1699999990) /\
  deref (heap st') 1%nat !! "last_seen" = Some (VStr "2023-11-14T22:13:10Z").
Proof. repeat split; vm_compute; reflexivity. Qed.

(** C3, as the specification states it, fails: a limit of 5 stays 5, and a
    wallet with seven active workers gets a page of five. *)
Lemma workers_limit_below_ten :
  workers_limit (Parsed 5) = 5 /\
  limit_specified 5 = 10 /\
  length (wv_workers (api_wallet_workers "bc1busy" (Parsed 5) Missing Missing Sample.now
                        (Sample.store_of Sample.seven_rigs))) = 5%nat.
Proof. repeat split; vm_compute; reflexivity. Qed.

(** C4, as the specification states it, fails: a window shorter than the
    interval gives a capacity of 0, and the series of a sampled wallet stays
    empty. *)
Lemma history_capacity_zero :
  history_maxlen 10 30 = 0 /\
  _bg_sampler (history_maxlen 10 30) Sample.snapshot 0 ∅ !! "bc1busy" = Some [].
Proof. split; vm_compute; reflexivity. Qed.

(** C5, as the specification states it, fails twice. With a clock of 120 and
    the default timeout, an idle wallet whose persisted last-seen time is 0 is
    active for the classifier and is dropped by [api_pool]. With a timeout of
    -60, an idle wallet last seen now is inactive for the classifier and is
    kept by [api_pool]. *)
Lemma api_pool_classifier_differs :
  (let db := Sample.store_of [Sample.seen "bc1idle" "rig1" 0 1] in
   persisted_last_seen db Sample.idle = Some 0 /\
   isActive Sample.idle (persisted_last_seen db Sample.idle) 300 120 = true /\
   (api_pool Sample.idle_only Missing 120 db None).2 =
     Ok {| view_pool := Some ∅; view_users := []; view_extras := ∅ |}) /\
  (let db := Sample.store_of [Sample.seen "bc1idle" "rig1" Sample.now 1] in
   persisted_last_seen db Sample.idle = Some Sample.now /\
   isActive Sample.idle (persisted_last_seen db Sample.idle) (-60) Sample.now = false /\
   (api_pool Sample.idle_only (Parsed (-60)) Sample.now db None).2 =
     Ok {| view_pool := Some ∅;
           view_users := [ <["last_seen" := VStr "2023-11-14T22:13:20Z"]>
                             (<["last_seen_ts" := VInt Sample.now]> Sample.idle) ];
           view_extras := ∅ |}).
Proof. repeat split; vm_compute; reflexivity. Qed.

(** C7, as the specification states it, fails: the query [" abc"] is not
    empty and no field contains it, yet [api_search] answers with the record
    whose address is ["abc123"]. *)
Lemma api_search_trims_query :
  api_search Sample.abc (Some " abc") = ("abc", [Sample.abc_record]) /\
  search_specified Sample.abc " abc" = [].
Proof. split; vm_compute; reflexivity. Qed.

(** C8, as the specification states it, fails: a worker seen now whose
    [active] flag is 0 is within the timeout and is not counted. *)
Lemma api_wallet_workers_counts_active_only :
  let tbl := [Sample.seen "bc1busy" "rig1" Sample.now 0] in
  wv_total (api_wallet_workers "bc1busy" Missing Missing Missing Sample.now
              (Sample.store_of tbl)) = 0 /\
  workers_within_timeout tbl "bc1busy" Sample.now 300 = 1.
Proof. split; vm_compute; reflexivity. Qed.

(** The ISO rendering of the sample runtime, at the ends of its range and
    around the years 0, 1000, 1970 and 10000. *)
Example iso_of_unix_renders :
  Sample.iso_of_unix Sample.now = Some "2023-11-14T22:13:20Z" /\
  Sample.iso_of_unix 0 = Some "1970-01-01T00:00:00Z" /\
  Sample.iso_of_unix (-1) = Some "1969-12-31T23:59:59Z" /\
  Sample.iso_of_unix (-30610224001) = Some "999-12-31T23:59:59Z" /\
  Sample.iso_of_unix (-62167219201) = Some "-1-12-31T23:59:59Z" /\
  Sample.iso_of_unix (-1234567890123) = Some "-37152-02-06T18:57:57Z" /\
  Sample.iso_of_unix 253402300800 = Some "10000-01-01T00:00:00Z" /\
  Sample.iso_of_unix 67767976233532799 = Some "2147483647-12-31T23:59:59Z" /\
  Sample.iso_of_unix 67767976233532800 = None /\
  Sample.iso_of_unix (-67768040609740800) = Some "-2147481748-01-01T00:00:00Z" /\
  Sample.iso_of_unix (-67768040609740801) = None.
Proof. repeat split; vm_compute; reflexivity. Qed.

(** A parameter outside 64 bits fails the statements of
    [api_wallet_workers] and of [api_history] with the store reachable. *)
Example api_wallet_workers_offset_out_of_range :
  let db := Sample.store_of Sample.seven_rigs in
  wv_total (api_wallet_workers "bc1busy" Missing (Parsed 7) Missing Sample.now db) = 7 /\
  wv_workers (api_wallet_workers "bc1busy" Missing (Parsed 7) Missing Sample.now db) = [] /\
  wv_total (api_wallet_workers "bc1busy" Missing (Parsed (2 ^ 63)) Missing Sample.now db) = 0.
Proof. repeat split; vm_compute; reflexivity. Qed.

Example api_history_window_out_of_range :
  let hist : history := {[ "bc1busy" := [(Sample.now - 30, 3%float)] ]} in
  let db : store :=
    Some {| workers_seen := None;
            wallet_history :=
              Some [ {| wh_wallet := Some "bc1busy"; wh_ts := Some (Sample.now - 10);
                        wh_hashrate := Some 5%float |} ] |} in
  (api_history hist "bc1busy" (Parsed 3600) Sample.now db).2 = [(Sample.now - 10, 5%float)] /\
  (api_history hist "bc1busy" (Parsed (10 ^ 19)) Sample.now db).2
    = [(Sample.now - 30, 3%float)].
Proof. split; vm_compute; reflexivity. Qed.

(** A round of the sampler on a full series of capacity 2: the oldest point
    goes, the point of the round comes last. *)
Example sampler_drops_oldest :
  let hist : history := {[ "bc1busy" := [(10, 1%float); (20, 2%float)] ]} in
  _bg_sampler 2 Sample.snapshot 30 hist !! "bc1busy"
    = Some [(20, 2%float); (30, 2.5%float)] /\
  _bg_sampler 3 Sample.snapshot 30 hist !! "bc1busy"
    = Some [(10, 1%float); (20, 2%float); (30, 2.5%float)].
Proof. split; vm_compute; reflexivity. Qed.

(** The round of the previous example, from the first-in-first-out
    property of the sampler: the busy wallet is the second record of the
    snapshot, the record before it is keyed as another wallet, and the
    capacity [60 // 30] is 2. *)
Lemma history_series_bounded_fifo_witness :
  let hist : history := {[ "bc1busy" := [(10, 1%float); (20, 2%float)] ]} in
  let p := (30, default 0%float (py_float (py_or (dget Sample.busy "hashrate1m") (VInt 0)))) in
  let d := default [] (hist !! "bc1busy") in
  1 <= history_maxlen 60 30 /\
  Z.of_nat (length d) = history_maxlen 60 30 /\
  _bg_sampler (history_maxlen 60 30) Sample.snapshot 30 hist !! "bc1busy"
    = Some (tail d ++ [p]).
Proof.
  intros hist p d.
  destruct (history_series_bounded_fifo 60 30) as (_ & _ & _ & _ & _ & _ & Hfifo).
  assert (Hpos : 1 <= history_maxlen 60 30) by (vm_compute; discriminate).
  assert (Hfull : Z.of_nat (length d) = history_maxlen 60 30) by reflexivity.
  split; [exact Hpos|]. split; [exact Hfull|].
  refine (proj2 (Hfifo Sample.snapshot 30 hist [0%nat] [] 1%nat Sample.busy "bc1busy"
                   eq_refl eq_refl _ _ _ _) Hpos Hfull).
  - right. split; [exact I | reflexivity].
  - discriminate.
  - intros l' u' Hl' Hu'. apply list_elem_of_singleton in Hl'. subst l'.
    injection Hu' as <-. right. exists "bc1idle".
    split; [discriminate|]. right. split; [exact I | reflexivity].
  - intros l' u' Hl'. apply elem_of_nil in Hl'. contradiction.
Defined.

(** An aggregate of 0: the idle wallet is annotated with nulls in the cache
    and dropped, as with no row at all. *)
Example api_pool_zero_last_seen_drops_idle :
  let db0 := Sample.store_of [Sample.seen "bc1idle" "rig1" 0 1] in
  let out := api_pool Sample.snapshot Missing Sample.now db0 None in
  heap out.1 !! 0%nat
    = Some (<["last_seen" := VNone]> (<["last_seen_ts" := VNone]> Sample.idle)) /\
  out.2 = Ok {| view_pool := Some ∅;
                view_users :=
                  [ <["last_seen" := VNone]> (<["last_seen_ts" := VNone]> Sample.busy) ];
                view_extras := ∅ |}.
Proof. split; vm_compute; reflexivity. Qed.

Lemma api_pool_zero_last_seen_witness :
  let rows := [Sample.seen "bc1idle" "rig1" 0 1] in
  (exists r, r ∈ rows /\ ws_wallet r = Some "bc1idle" /\ ws_last_seen r = Some 0) /\
  (forall r t, r ∈ rows -> ws_wallet r = Some "bc1idle" -> ws_last_seen r = Some t -> t <= 0) /\
  api_pool Sample.snapshot Missing Sample.now
    (Some {| workers_seen := Some rows; wallet_history := None |}) None =
  api_pool Sample.snapshot Missing Sample.now
    (Some {| workers_seen := Some (filter (fun r => ws_wallet r <> Some "bc1idle") rows);
             wallet_history := None |}) None.
Proof.
  intros rows.
  assert (Hex : exists r, r ∈ rows /\ ws_wallet r = Some "bc1idle" /\ ws_last_seen r = Some 0).
  { exists (Sample.seen "bc1idle" "rig1" 0 1).
    split; [apply elem_of_cons; left; reflexivity | split; reflexivity]. }
  assert (Hmax : forall r t, r ∈ rows -> ws_wallet r = Some "bc1idle" ->
                             ws_last_seen r = Some t -> t <= 0).
  { intros r t Hin _ Ht. apply list_elem_of_singleton in Hin. subst r.
    injection Ht as <-. lia. }
  split; [exact Hex|]. split; [exact Hmax|].
  exact (proj1 (api_pool_zero_last_seen_as_absent Sample.snapshot Missing Sample.now
                  rows None None None "bc1idle" Hex Hmax)).
Defined.

(** ** Witnesses of the further properties *)

Lemma api_pool_timeout_monotone_witness :
  let db := Sample.store_of [Sample.seen "bc1idle" "rig1" (Sample.now - 100) 1] in
  exists v1 v2,
    int_or (Parsed 60) 300 <= int_or (Parsed 600) 300 /\
    (api_pool Sample.snapshot (Parsed 60) Sample.now db None).2 = Ok v1 /\
    (api_pool Sample.snapshot (Parsed 600) Sample.now db None).2 = Ok v2 /\
    length (view_users v1) = 1%nat /\ length (view_users v2) = 2%nat /\
    view_users v1 `sublist_of` view_users v2.
Proof.
  intros db.
  assert (H1 : exists v1, (api_pool Sample.snapshot (Parsed 60) Sample.now db None).2 = Ok v1
                          /\ length (view_users v1) = 1%nat)
    by (vm_compute; eexists; split; reflexivity).
  assert (H2 : exists v2, (api_pool Sample.snapshot (Parsed 600) Sample.now db None).2 = Ok v2
                          /\ length (view_users v2) = 2%nat)
    by (vm_compute; eexists; split; reflexivity).
  destruct H1 as (v1 & H1 & L1), H2 as (v2 & H2 & L2).
  assert (Hle : int_or (Parsed 60) 300 <= int_or (Parsed 600) 300) by (simpl; lia).
  exists v1, v2. repeat split; try assumption.
  exact (api_pool_timeout_monotone Sample.snapshot (Parsed 60) (Parsed 600) Sample.now
           db None v1 v2 Hle H1 H2).
Defined.

Lemma api_user_after_api_pool_witness :
  let db := Sample.store_of [Sample.seen "bc1busy" "rig1" (Sample.now - 10) 1] in
  exists view,
    (api_pool Sample.snapshot Missing Sample.now db None).2 = Ok view /\
    api_user Sample.snapshot "bc1busy" = Ok Sample.busy /\
    api_user (api_pool Sample.snapshot Missing Sample.now db None).1 "bc1busy"
    = Ok (annotate (load_last_map db) Sample.busy).
Proof.
  intros db.
  assert (H1 : exists view, (api_pool Sample.snapshot Missing Sample.now db None).2 = Ok view)
    by (vm_compute; eexists; reflexivity).
  destruct H1 as (view & H1).
  assert (H2 : api_user Sample.snapshot "bc1busy" = Ok Sample.busy)
    by (vm_compute; reflexivity).
  exists view. split; [exact H1|]. split; [exact H2|].
  exact (api_user_after_api_pool Sample.snapshot Missing Sample.now db None view
           "bc1busy" Sample.busy H1 H2).
Defined.

Lemma api_search_query_case_witness :
  lower (strip " ABC") = lower (strip "abc ") /\
  (api_search Sample.abc (Some " ABC")).2 = (api_search Sample.abc (Some "abc ")).2.
Proof.
  assert (Hq : lower (strip " ABC") = lower (strip "abc ")) by reflexivity.
  split; [exact Hq|].
  exact (api_search_query_case Sample.abc " ABC" "abc " Hq).
Defined.

Lemma api_user_found_by_search_witness :
  "abc123" <> "" /\ strip "abc123" = "abc123" /\
  api_user Sample.abc "abc123" = Ok Sample.abc_record /\
  Sample.abc_record ∈ (api_search Sample.abc (Some "abc123")).2.
Proof.
  assert (Hne : "abc123" <> "") by discriminate.
  assert (Hs : strip "abc123" = "abc123") by reflexivity.
  assert (Hu : api_user Sample.abc "abc123" = Ok Sample.abc_record)
    by (vm_compute; reflexivity).
  split; [exact Hne|]. split; [exact Hs|]. split; [exact Hu|].
  exact (api_user_found_by_search Sample.abc "abc123" Sample.abc_record Hne Hs Hu).
Defined.

Lemma sampler_other_series_untouched_witness :
  let hist : history := {[ "bc1gone" := [(Sample.now - 30, 1%float)] ]} in
  Forall (fun l => row_key (deref (heap Sample.snapshot) l) <> VStr "bc1gone")
    (users Sample.snapshot) /\
  _bg_sampler 2880 Sample.snapshot Sample.now hist !! "bc1gone" = hist !! "bc1gone".
Proof.
  intros hist.
  assert (Hall : Forall (fun l => row_key (deref (heap Sample.snapshot) l) <> VStr "bc1gone")
                   (users Sample.snapshot))
    by (repeat constructor; vm_compute; discriminate).
  split; [exact Hall|].
  exact (sampler_other_series_untouched 2880 Sample.snapshot Sample.now hist "bc1gone" Hall).
Defined.

Lemma sampler_stamps_every_wallet_witness :
  1 <= 2880 /\
  Forall (fun l => truthy (row_key (deref (heap Sample.snapshot) l)) = false \/
                   hashable (row_key (deref (heap Sample.snapshot) l)) = true)
    (users Sample.snapshot) /\
  1%nat ∈ users Sample.snapshot /\
  row_key (deref (heap Sample.snapshot) 1%nat) = VStr "bc1busy" /\
  "bc1busy" <> "" /\
  exists d v, _bg_sampler 2880 Sample.snapshot Sample.now ∅ !! "bc1busy"
              = Some (d ++ [(Sample.now, v)]).
Proof.
  assert (Hpos : 1 <= 2880) by lia.
  assert (Hall : Forall (fun l => truthy (row_key (deref (heap Sample.snapshot) l)) = false \/
                                  hashable (row_key (deref (heap Sample.snapshot) l)) = true)
                   (users Sample.snapshot))
    by (repeat constructor; right; reflexivity).
  assert (Hl : 1%nat ∈ users Sample.snapshot)
    by (apply elem_of_cons; right; apply elem_of_cons; left; reflexivity).
  assert (Hk : row_key (deref (heap Sample.snapshot) 1%nat) = VStr "bc1busy")
    by (vm_compute; reflexivity).
  assert (Hne : "bc1busy" <> "") by discriminate.
  repeat (split; [assumption|]).
  exact (sampler_stamps_every_wallet 2880 Sample.snapshot Sample.now ∅ 1%nat "bc1busy"
           Hpos Hall Hl Hk Hne).
Defined.

Lemma sampler_keeps_series_sorted_witness :
  let hist : history := {[ "bc1busy" := [(Sample.now - 60, 2%float); (Sample.now - 30, 3%float)] ]} in
  Sample.now - 30 <= Sample.now /\
  (forall a d, hist !! a = Some d ->
     StronglySorted (fun p q : point => p.1 <= q.1) d /\
     Forall (fun p : point => p.1 <= Sample.now - 30) d) /\
  forall a d, _bg_sampler 2880 Sample.snapshot Sample.now hist !! a = Some d ->
    StronglySorted (fun p q : point => p.1 <= q.1) d /\
    Forall (fun p : point => p.1 <= Sample.now) d.
Proof.
  intros hist.
  assert (Hclock : Sample.now - 30 <= Sample.now) by (unfold Sample.now; lia).
  assert (Hinv : forall a d, hist !! a = Some d ->
            StronglySorted (fun p q : point => p.1 <= q.1) d /\
            Forall (fun p : point => p.1 <= Sample.now - 30) d).
  { intros a d Hd. apply lookup_singleton_Some in Hd as [_ <-].
    split; repeat constructor; unfold Sample.now; simpl; lia. }
  split; [exact Hclock|]. split; [exact Hinv|].
  exact (sampler_keeps_series_sorted 2880 Sample.snapshot (Sample.now - 30) Sample.now
           hist Hclock Hinv).
Defined.

Lemma api_history_memory_suffix_witness :
  let hist : history :=
    {[ "bc1busy" := [(Sample.now - 7200, 2%float); (Sample.now - 30, 3%float)] ]} in
  ((None : store) = None \/
   exists conn, (None : store) = Some conn /\ wallet_history conn = None) /\
  StronglySorted (fun p q : point => p.1 <= q.1) (default [] (hist !! "bc1busy")) /\
  (api_history hist "bc1busy" (Parsed 3600) Sample.now None).2 = [(Sample.now - 30, 3%float)] /\
  exists k, (api_history hist "bc1busy" (Parsed 3600) Sample.now None).2
            = drop k (default [] (hist !! "bc1busy")).
Proof.
  intros hist.
  assert (Hdown : (None : store) = None \/
                  exists conn, (None : store) = Some conn /\ wallet_history conn = None)
    by (left; reflexivity).
  assert (Hs : StronglySorted (fun p q : point => p.1 <= q.1) (default [] (hist !! "bc1busy"))).
  { vm_compute. repeat constructor; vm_compute; discriminate. }
  split; [exact Hdown|]. split; [exact Hs|]. split; [vm_compute; reflexivity|].
  exact (api_history_memory_suffix hist "bc1busy" (Parsed 3600) Sample.now None Hdown Hs).
Defined.

Lemma sample_served_from_memory_witness :
  1 <= 2880 /\
  Forall (fun l => truthy (row_key (deref (heap Sample.snapshot) l)) = false \/
                   hashable (row_key (deref (heap Sample.snapshot) l)) = true)
    (users Sample.snapshot) /\
  1%nat ∈ users Sample.snapshot /\
  row_key (deref (heap Sample.snapshot) 1%nat) = VStr "bc1busy" /\
  "bc1busy" <> "" /\
  Sample.now - Z.max 60 (int_or (Parsed 3600) (6 * 3600)) <= Sample.now - 30 /\
  exists v, (Sample.now - 30, v) ∈
    (api_history (_bg_sampler 2880 Sample.snapshot (Sample.now - 30) ∅) "bc1busy"
       (Parsed 3600) Sample.now None).2.
Proof.
  assert (Hpos : 1 <= 2880) by lia.
  assert (Hall : Forall (fun l => truthy (row_key (deref (heap Sample.snapshot) l)) = false \/
                                  hashable (row_key (deref (heap Sample.snapshot) l)) = true)
                   (users Sample.snapshot))
    by (repeat constructor; right; reflexivity).
  assert (Hl : 1%nat ∈ users Sample.snapshot)
    by (apply elem_of_cons; right; apply elem_of_cons; left; reflexivity).
  assert (Hk : row_key (deref (heap Sample.snapshot) 1%nat) = VStr "bc1busy")
    by (vm_compute; reflexivity).
  assert (Hne : "bc1busy" <> "") by discriminate.
  assert (Hwin : Sample.now - Z.max 60 (int_or (Parsed 3600) (6 * 3600)) <= Sample.now - 30)
    by (simpl; lia).
  repeat (split; [assumption|]).
  exact (sample_served_from_memory 2880 Sample.snapshot (Sample.now - 30) ∅ 1%nat "bc1busy"
           (Parsed 3600) Sample.now Hpos Hall Hl Hk Hne Hwin).
Defined.
